(** * iClaudius icon generator: a model of [generate_icon.py]

    The script has two functions.  [create_claudius_icon] draws the icon on
    an in-memory RGBA canvas through the imaging library, [create_icns]
    resizes it into an iconset directory, runs the platform packaging tool
    and removes the directory.

    Conventions of the model.
    - Python integers are [Z]; [//] is [Z.div] (floor division).
    - Exceptions are values of [exn]; a computation that may raise returns a
      [result].  File-system code runs in the monad [M], a state monad over
      [world] whose state survives an exception.
    - The imaging library and the host (installed fonts, the packaging
      tool) are not part of the script: they are parameters, gathered in the
      records [Pillow] and [Host].
    - Python floats are idealised: the quantities that are truncated back to
      an integer are computed over exact rationals ([Q]), the trigonometry of
      the dot ring over the reals ([R]).  Module [Binary64] re-computes the
      rational ones with IEEE binary64 numbers; the two are compared at the
      size the script renders (1024) and at every size up to 64. *)

From Stdlib Require Import ZArith QArith Qround Reals Lra Lia.
From Stdlib Require Import String Ascii DecimalString.
From Stdlib Require Import Floats.
From stdpp Require Import base option list gmap sets strings.

Local Open Scope Z_scope.

(** ** Exceptions and results *)

Inductive exn : Type :=
| ValueError
| OSError
| FileNotFoundError
| FileExistsError
| IsADirectoryError
| NotADirectoryError
| CalledProcessError (returncode : Z).

Inductive result (A : Type) : Type :=
| Ok (a : A)
| Raise (e : exn).
Arguments Ok {A} a.
Arguments Raise {A} e.

Definition rbind {A B : Type} (r : result A) (k : A -> result B) : result B :=
  match r with
  | Ok a => k a
  | Raise e => Raise e
  end.

(** [try: body except: handler], with Python's bare [except:] that catches
    every exception. *)
Definition try_except {A : Type} (body handler : result A) : result A :=
  match body with
  | Ok a => Ok a
  | Raise _ => handler
  end.

(** ** Strings: the [str] and [os.path] functions the script calls *)

(** [s.startswith(pre)] *)
Fixpoint starts_with (pre s : string) : bool :=
  match pre, s with
  | EmptyString, _ => true
  | String _ _, EmptyString => false
  | String a pre', String b s' =>
      if Ascii.eqb a b then starts_with pre' s' else false
  end.

(** [s.endswith("/")] *)
Fixpoint ends_with_sep (s : string) : bool :=
  match s with
  | EmptyString => false
  | String c EmptyString => Ascii.eqb c "/"
  | String _ s' => ends_with_sep s'
  end.

(** [s.find(old)]: index of the first occurrence. *)
Fixpoint find (old s : string) : option nat :=
  if starts_with old s then Some O
  else match s with
       | EmptyString => None
       | String _ s' => S <$> find old s'
       end.

(** The scan of [str.replace] for a non-empty [old]: left to right, an
    occurrence is replaced and the scan resumes after it.  [skip] counts the
    characters of the current occurrence still to pass over. *)
Fixpoint replace_from (skip : nat) (old new s : string) : string :=
  match s with
  | EmptyString => EmptyString
  | String c s' =>
      match skip with
      | S k => replace_from k old new s'
      | O =>
          if starts_with old s
          then new +:+ replace_from (String.length old - 1) old new s'
          else String c (replace_from O old new s')
      end
  end.

(** With an empty [old], [str.replace] inserts [new] around every
    character. *)
Fixpoint intersperse (new s : string) : string :=
  match s with
  | EmptyString => new
  | String c s' => new +:+ String c (intersperse new s')
  end.

(** [s.replace(old, new)] *)
Definition replace (s old new : string) : string :=
  match old with
  | EmptyString => intersperse new s
  | String _ _ => replace_from O old new s
  end.

(** [os.path.join(a, b)] on a POSIX host. *)
Definition join (a b : string) : string :=
  if starts_with "/" b then b
  else if String.eqb a "" || ends_with_sep a then a +:+ b
  else a +:+ "/" +:+ b.

(** [str(n)], as an f-string formats an integer. *)
Definition str (n : Z) : string := NilZero.string_of_int (Z.to_int n).

(** ** Images *)

(** A pixel: four 8-bit channels. *)
Record RGBA : Type := mkRGBA { red : Z; green : Z; blue : Z; alpha : Z }.

(** A raster image: its [size] attribute (width, height) and its rows of
    pixels, top row first. *)
Record Image : Type := mkImage {
  im_size : Z * Z;
  im_rows : list (list RGBA)
}.


(** A colour argument as the script writes it: a 3-tuple, which the
    library takes as opaque, or a 4-tuple with its alpha. *)
Inductive color : Type :=
| RGB (r g b : Z)
| RGBa (r g b a : Z).

Definition ink (c : color) : RGBA :=
  match c with
  | RGB r g b => mkRGBA r g b 255
  | RGBa r g b a => mkRGBA r g b a
  end.

Definition rgba_eqb (p q : RGBA) : bool :=
  (red p =? red q) && (green p =? green q) &&
  (blue p =? blue q) && (alpha p =? alpha q).

(** A coordinate handed to the library: a Python [int] or a [float]. *)
Inductive num : Type :=
| Int (n : Z)
| Float (x : R).

Definition box : Type := (num * num * num * num)%type.

(** A loaded font: a TrueType file at a pixel size, or the built-in
    default of [ImageFont.load_default()]. *)
Inductive Font : Type :=
| TrueType (path : string) (size : Z)
| DefaultFont.

(** The imaging library, as far as the script relies on it: which pixels
    each primitive touches, the measure of a text, how a glyph is
    composited, and the resampling of [Image.resize]. *)
Record Pillow : Type := mkPillow {
  line_covers : Z -> Z -> Z -> Z -> Z -> Z -> bool;
  ellipse_fill_covers : box -> Z -> Z -> bool;
  ellipse_outline_covers : box -> Z -> Z -> Z -> bool;
  textbbox : Z * Z -> string -> Font -> Z * Z * Z * Z;
  text_blend : Z * Z -> string -> Font -> RGBA -> Z -> Z -> RGBA -> RGBA;
  resize : Image -> Z * Z -> Image
}.

(** The host: what [ImageFont.truetype] meets when it opens a font file
    at a size, [None] when the font loads and else the exception raised. *)
Record Host : Type := mkHost {
  font_error : string -> Z -> option exn
}.

Definition font_loads (H : Host) (path : string) (size : Z) : bool :=
  match font_error H path size with
  | None => true
  | Some _ => false
  end.

(** The calls the script makes on its [ImageDraw] object. *)
Inductive draw_call : Type :=
| DrawLine (x0 y0 x1 y1 : Z) (fill : color)
| DrawEllipse (xy : box) (fill outline : option color) (width : Z)
| DrawText (xy : Z * Z) (text : string) (font : Font) (fill : color).

(** [Image.new('RGBA', size, color)] *)
Definition image_new (size : Z * Z) (c : RGBA) : result Image :=
  if (fst size <? 0) || (snd size <? 0) then Raise ValueError
  else Ok (mkImage size
             (replicate (Z.to_nat (snd size))
                (replicate (Z.to_nat (fst size)) c))).

(** A horizontal line covers the pixels of its row between its ends, both
    included; the buffer clips what falls outside. *)
Definition hline_covers (x0 y0 x1 x y : Z) : bool :=
  (y =? y0) && (Z.min x0 x1 <=? x) && (x <=? Z.max x0 x1).

(** What a call leaves at pixel (x, y), given what was there.  The draw
    object of an RGBA image replaces pixels, it does not blend, except
    for the anti-aliased glyph mask of [text]. *)
Definition call_pixel (P : Pillow) (c : draw_call) (x y : Z) (old : RGBA) : RGBA :=
  match c with
  | DrawLine x0 y0 x1 y1 fill =>
      let covered :=
        if y0 =? y1 then hline_covers x0 y0 x1 x y
        else line_covers P x0 y0 x1 y1 x y in
      if covered then ink fill else old
  | DrawEllipse xy fill outline width =>
      let filled :=
        match fill with
        | Some f => if ellipse_fill_covers P xy x y then ink f else old
        | None => old
        end in
      match outline with
      | Some o =>
          let same := match fill with
                      | Some f => rgba_eqb (ink o) (ink f)
                      | None => false
                      end in
          if negb same && negb (width =? 0) &&
             ellipse_outline_covers P xy width x y
          then ink o else filled
      | None => filled
      end
  | DrawText xy text font fill => text_blend P xy text font (ink fill) x y old
  end.

(** Drawing is in place: every pixel of the buffer is recomputed from
    itself, the buffer keeps its rows. *)
Definition paint (f : Z -> Z -> RGBA -> RGBA) (rows : list (list RGBA))
  : list (list RGBA) :=
  imap (fun y row => imap (fun x px => f (Z.of_nat x) (Z.of_nat y) px) row) rows.

Definition draw (P : Pillow) (im : Image) (c : draw_call) : Image :=
  mkImage (im_size im) (paint (call_pixel P c) (im_rows im)).

(** [im.getpixel((x, y))], [None] outside the buffer. *)
Definition getpixel (im : Image) (xy : Z * Z) : option RGBA :=
  if (0 <=? fst xy) && (0 <=? snd xy)
  then im_rows im !! Z.to_nat (snd xy) ≫= fun row => row !! Z.to_nat (fst xy)
  else None.

(** ** Idealised floats *)

(** [a / b] on integers (true division). *)
Definition true_div (a b : Z) : Q := (inject_Z a / inject_Z b)%Q.

(** [int(x)]: truncation toward zero. *)
Definition int_of_Q (q : Q) : Z := Z.quot (Qnum q) (Zpos (Qden q)).

(** ** The Renderer: [create_claudius_icon] *)

Definition gold : color := RGB 212 175 55.
Definition dark_gold : color := RGB 180 145 35.

Definition times_ttc : string := "/System/Library/Fonts/Times.ttc".
Definition times_new_roman_ttf : string :=
  "/System/Library/Fonts/Supplemental/Times New Roman.ttf".

(** Colour of scanline [i] (lines 29-32). *)
Definition gradient_color (size i : Z) : color :=
  let ratio := true_div i size in
  let r := int_of_Q (88 + 40 * ratio)%Q in
  let g := int_of_Q (28 + 20 * ratio)%Q in
  let b := int_of_Q (108 + 30 * ratio)%Q in
  RGBa r g b 255.

(** Background loop (lines 28-33). *)
Definition gradient_calls (size : Z) : list draw_call :=
  (fun i => DrawLine 0 i size i (gradient_color size i)) <$> seqZ 0 size.

(** The two rings (lines 40-56). *)
Definition ring_calls (size : Z) : list draw_call :=
  let margin := size / 10 in
  let outer_border := size / 30 in
  let inner_border := size / 40 in
  let inner_margin := margin + outer_border + size / 50 in
  [ DrawEllipse (Int margin, Int margin, Int (size - margin), Int (size - margin))
      None (Some gold) outer_border;
    DrawEllipse (Int inner_margin, Int inner_margin,
                 Int (size - inner_margin), Int (size - inner_margin))
      None (Some dark_gold) inner_border ].

(** [int(size * 0.55)] (line 60). *)
Definition font_size (size : Z) : Z := int_of_Q (inject_Z size * 0.55)%Q.

Section Renderer.
Variable P : Pillow.
Variable H : Host.

(** [ImageFont.truetype(path, size)]: the font, or the host's error. *)
Definition truetype (path : string) (size : Z) : result Font :=
  match font_error H path size with
  | None => Ok (TrueType path size)
  | Some e => Raise e
  end.

(** [ImageFont.load_default()]: the font embedded in the library. *)
Definition load_default : Font := DefaultFont.

(** Font resolution (lines 59-69): two nested [try], each with a bare
    [except]. *)
Definition load_font (size : Z) : result Font :=
  try_except
    (let font_size := font_size size in
     try_except
       (truetype times_ttc font_size)
       (try_except
          (truetype times_new_roman_ttf font_size)
          (Ok load_default)))
    (Ok load_default).

(** The glyph and its shadow (lines 71-84). *)
Definition glyph_calls (size : Z) (font : Font) : list draw_call :=
  let center := size / 2 in
  let text := "C"%string in
  let bbox := textbbox P (0, 0) text font in
  let '(bbox0, bbox1, bbox2, bbox3) := bbox in
  let text_width := bbox2 - bbox0 in
  let text_height := bbox3 - bbox1 in
  let text_x := center - text_width / 2 in
  let text_y := center - text_height / 2 - size / 25 in
  let shadow_offset := size / 60 in
  [ DrawText (text_x + shadow_offset, text_y + shadow_offset) text font
      (RGBa 20 20 20 200);
    DrawText (text_x, text_y) text font gold ].

(** Centre of dot [i] (lines 92-94). *)
Definition dot_center (size i : Z) : R * R :=
  let center := size / 2 in
  let margin := size / 10 in
  let num_dots := 24 in
  let dot_distance := size / 2 - margin - size / 15 in
  let angle := (IZR i / IZR num_dots * 2 * PI - PI / 2)%R in
  let x := (IZR center + cos angle * IZR dot_distance)%R in
  let y := (IZR center + sin angle * IZR dot_distance)%R in
  (x, y).

(** The dot ring (lines 87-98). *)
Definition dot_calls (size : Z) : list draw_call :=
  let dot_radius := size / 80 in
  let num_dots := 24 in
  (fun i =>
     let '(x, y) := dot_center size i in
     DrawEllipse (Float (x - IZR dot_radius), Float (y - IZR dot_radius),
                  Float (x + IZR dot_radius), Float (y + IZR dot_radius))
       (Some dark_gold) None 1) <$> seqZ 0 num_dots.

(** Every call on the draw object, in program order. *)
Definition draw_calls (size : Z) : result (list draw_call) :=
  rbind (load_font size) (fun font =>
  Ok (gradient_calls size ++ ring_calls size ++
      glyph_calls size font ++ dot_calls size)).

(** [create_claudius_icon(size)] *)
Definition create_claudius_icon (size : Z) : result Image :=
  rbind (image_new (size, size) (mkRGBA 0 0 0 0)) (fun img =>
  rbind (draw_calls size) (fun calls =>
  Ok (foldl (draw P) img calls))).

End Renderer.

(** ** The file system and the monad of [create_icns] *)

(** The file system, keyed by the path strings the program passes: the
    directories and the image files.  Paths are compared as written;
    ancestors and permissions are not tracked. *)
Record filesystem : Type := mkFS {
  dirs : gset string;
  files : gmap string Image
}.

(** What the program did to its surroundings, oldest first. *)
Inductive event : Type :=
| EvMakedirs (path : string)
| EvSave (path : string) (im : Image)
| EvRun (argv : list string)
| EvRmtree (path : string).

Record world : Type := mkWorld {
  w_fs : filesystem;
  w_trace : list event
}.

(** A command: it runs in a world, leaves a world, and returns or raises. *)
Definition M (A : Type) : Type := world -> result A * world.

#[export] Instance M_ret : MRet M := fun A a w => (Ok a, w).

#[export] Instance M_bind : MBind M := fun A B k m w =>
  match m w with
  | (Ok a, w') => k a w'
  | (Raise e, w') => (Raise e, w')
  end.

Definition raise {A : Type} (e : exn) : M A := fun w => (Raise e, w).

Definition emit (ev : event) : M unit := fun w =>
  (Ok tt, mkWorld (w_fs w) (w_trace w ++ [ev])).

Definition get_fs : M filesystem := fun w => (Ok (w_fs w), w).

Definition put_fs (f : filesystem) : M unit := fun w =>
  (Ok tt, mkWorld f (w_trace w)).

(** [for x in l: body x] *)
Fixpoint for_ {A : Type} (l : list A) (body : A -> M unit) : M unit :=
  match l with
  | [] => mret tt
  | x :: l' => body x ≫= fun _ => for_ l' body
  end.

(** [path] lies inside directory [d]. *)
Definition under (d path : string) : bool := starts_with (join d "") path.

(** [os.makedirs(path, exist_ok=True)] *)
Definition makedirs (path : string) : M unit :=
  f ← get_fs;
  if String.eqb path "" then raise FileNotFoundError
  else if bool_decide (is_Some (files f !! path)) then raise FileExistsError
  else put_fs (mkFS ({[ path ]} ∪ dirs f) (files f)) ≫= fun _ =>
       emit (EvMakedirs path).

(** [image.save(path)]: the file is created or overwritten; a directory
    cannot be opened for writing. *)
Definition save (im : Image) (path : string) : M unit :=
  f ← get_fs;
  if bool_decide (path ∈ dirs f) then raise IsADirectoryError
  else put_fs (mkFS (dirs f) (<[ path := im ]> (files f))) ≫= fun _ =>
       emit (EvSave path im).

(** [shutil.rmtree(path)]: the directory goes with everything inside. *)
Definition rmtree (path : string) : M unit :=
  f ← get_fs;
  if bool_decide (path ∈ dirs f) then
    put_fs (mkFS (filter (fun d => d ≠ path ∧ under path d = false) (dirs f))
                 (filter (fun kv => under path (fst kv) = false) (files f)))
    ≫= fun _ => emit (EvRmtree path)
  else if bool_decide (is_Some (files f !! path)) then raise NotADirectoryError
  else raise FileNotFoundError.

(** ** The Exporter: [create_icns] *)

Section Exporter.
Variable P : Pillow.

(** The host's process launcher: [None] when the program cannot be
    started, else the exit status and the file system the process left. *)
Variable spawn : list string -> filesystem -> option (Z * filesystem).

(** [subprocess.run(argv, check=True)] *)
Definition subprocess_run (argv : list string) : M unit :=
  f ← get_fs;
  match spawn argv f with
  | None => raise FileNotFoundError
  | Some (returncode, f') =>
      put_fs f' ≫= fun _ =>
      emit (EvRun argv) ≫= fun _ =>
      if returncode =? 0 then mret tt
      else raise (CalledProcessError returncode)
  end.

Definition sizes : list Z := [16; 32; 64; 128; 256; 512; 1024].

(** The body of the loop over [sizes] (lines 112-117). *)
Definition stage_size (source_image : Image) (iconset_path : string)
    (size : Z) : M unit :=
  let resized := resize P source_image (size, size) in
  save resized
    (join iconset_path ("icon_" +:+ str size +:+ "x" +:+ str size +:+ ".png"))
  ≫= fun _ =>
  if size <=? 512 then
    let resized_2x := resize P source_image (size * 2, size * 2) in
    save resized_2x
      (join iconset_path
         ("icon_" +:+ str size +:+ "x" +:+ str size +:+ "@2x.png"))
  else mret tt.

(** The staging directory (line 108). *)
Definition iconset_path_of (output_path : string) : string :=
  replace output_path ".icns" ".iconset".

(** The command line of the packaging tool (line 120). *)
Definition iconutil_argv (iconset_path output_path : string) : list string :=
  ["iconutil"; "-c"; "icns"; iconset_path; "-o"; output_path]%string.

(** Lines 105-117: the directory and the thirteen files. *)
Definition stage_iconset (source_image : Image) (output_path : string) : M unit :=
  let iconset_path := iconset_path_of output_path in
  makedirs iconset_path ≫= fun _ =>
  for_ sizes (stage_size source_image iconset_path).

(** [create_icns(source_image, output_path)] *)
Definition create_icns (source_image : Image) (output_path : string) : M unit :=
  let iconset_path := iconset_path_of output_path in
  stage_iconset source_image output_path ≫= fun _ =>
  subprocess_run (iconutil_argv iconset_path output_path) ≫= fun _ =>
  rmtree iconset_path.

End Exporter.

(** ** The same arithmetic on IEEE binary64 numbers

    The float expressions of the Renderer as Python evaluates them, on the
    kernel's binary64 numbers, to compare with the rational ones above. *)
Module Binary64.

(** [float(n)], exact for the integers used here (below 2^53). *)
Definition of_int (n : Z) : float := PrimFloat.of_uint63 (Uint63.of_Z n).

(** [int(x)] for a finite [x]: truncation toward zero. *)
Definition int_of_float (x : float) : Z :=
  match Prim2SF x with
  | S754_finite s m e =>
      let v := if 0 <=? e then Z.pos m * 2 ^ e else Z.pos m / 2 ^ (- e) in
      if s then - v else v
  | _ => 0
  end.

Definition gradient_color (size i : Z) : color :=
  let ratio := (of_int i / of_int size)%float in
  let r := int_of_float (88 + 40 * ratio)%float in
  let g := int_of_float (28 + 20 * ratio)%float in
  let b := int_of_float (108 + 30 * ratio)%float in
  RGBa r g b 255.

Definition font_size (size : Z) : Z :=
  int_of_float (of_int size * 0x1.199999999999ap-1)%float.

End Binary64.

Definition color_eqb (c d : color) : bool :=
  match c, d with
  | RGB r g b, RGB r' g' b' => (r =? r') && (g =? g') && (b =? b')
  | RGBa r g b a, RGBa r' g' b' a' =>
      (r =? r') && (g =? g') && (b =? b') && (a =? a')
  | _, _ => false
  end.

(** The two computations give the same colours and font size for [size]. *)
Definition binary64_agrees_at (size : Z) : bool :=
  (Binary64.font_size size =? font_size size) &&
  forallb (fun i => color_eqb (Binary64.gradient_color size i)
                              (gradient_color size i))
          (seqZ 0 size).

(** ** A small imaging library to run the model

    Stand-ins for the library's rasterisers, simple enough to evaluate:
    exact ellipses on integer boxes (a box with float corners is left
    undrawn), a block glyph, nearest-neighbour resampling. *)
Module Reference.

Definition in_ellipse (x0 y0 x1 y1 x y : Z) : bool :=
  let w := x1 - x0 in
  let h := y1 - y0 in
  (x0 <=? x) && (x <=? x1) && (y0 <=? y) && (y <=? y1) &&
  ((2 * x - x0 - x1) ^ 2 * h ^ 2 + (2 * y - y0 - y1) ^ 2 * w ^ 2
     <=? w ^ 2 * h ^ 2).

Definition ellipse_fill_covers (xy : box) (x y : Z) : bool :=
  match xy with
  | (Int x0, Int y0, Int x1, Int y1) => in_ellipse x0 y0 x1 y1 x y
  | _ => false
  end.

Definition ellipse_outline_covers (xy : box) (width x y : Z) : bool :=
  match xy with
  | (Int x0, Int y0, Int x1, Int y1) =>
      in_ellipse x0 y0 x1 y1 x y &&
      negb (in_ellipse (x0 + width) (y0 + width) (x1 - width) (y1 - width) x y)
  | _ => false
  end.

(** A TrueType glyph is a block of half its pixel size by its pixel size,
    below a bearing of a quarter; the default font is 6 by 11. *)
Definition textbbox (xy : Z * Z) (text : string) (font : Font) : Z * Z * Z * Z :=
  let n := Z.of_nat (String.length text) in
  match font with
  | TrueType _ size =>
      (fst xy, snd xy + size / 4, fst xy + n * (size / 2), snd xy + size / 4 + size)
  | DefaultFont => (fst xy, snd xy, fst xy + 6 * n, snd xy + 11)
  end.

Definition blend (a old new : Z) : Z := (new * a + old * (255 - a)) / 255.

Definition text_blend (xy : Z * Z) (text : string) (font : Font) (c : RGBA)
    (x y : Z) (old : RGBA) : RGBA :=
  let '(l, t, r, b) := textbbox xy text font in
  if (l <=? x) && (x <? r) && (t <=? y) && (y <? b)
  then mkRGBA (blend (alpha c) (red old) (red c))
              (blend (alpha c) (green old) (green c))
              (blend (alpha c) (blue old) (blue c))
              (Z.max (alpha old) (alpha c))
  else old.

Definition pixel_at (im : Image) (x y : Z) : RGBA :=
  default (mkRGBA 0 0 0 0)
    (im_rows im !! Z.to_nat y ≫= fun row => row !! Z.to_nat x).

Definition resize (im : Image) (size : Z * Z) : Image :=
  let w0 := fst (im_size im) in
  let h0 := snd (im_size im) in
  mkImage size
    ((fun y => (fun x => pixel_at im (x * w0 / fst size) (y * h0 / snd size))
               <$> seqZ 0 (fst size))
     <$> seqZ 0 (snd size)).

Definition pillow : Pillow :=
  mkPillow (fun _ _ _ _ _ _ => false) ellipse_fill_covers
    ellipse_outline_covers textbbox text_blend resize.

(** Hosts: one where every font file opens, one with the two serif fonts
    of the script and no other, one with the supplemental font only, and
    one with no font file at all.  A size that is not positive is refused
    everywhere. *)
Definition host_with (installed : string -> bool) : Host :=
  mkHost (fun path size =>
            if size <=? 0 then Some ValueError
            else if installed path then None else Some OSError).
Definition bare : Host := host_with (fun _ => false).

(** A packaging tool that writes nothing and succeeds, and one that
    fails with status 1. *)
Definition tool_ok (argv : list string) (f : filesystem)
  : option (Z * filesystem) := Some (0, f).

Definition empty_world : world := mkWorld (mkFS ∅ ∅) [].

(** A square test card: the pixel at (x, y) records its coordinates. *)
Definition test_card (n : Z) : Image :=
  mkImage (n, n)
    ((fun y => (fun x => mkRGBA x y 0 255) <$> seqZ 0 n) <$> seqZ 0 n).

End Reference.

(** ** Vocabulary of the statements *)

(** [old] occurs in [s]. *)
Definition has_substring (old s : string) : Prop :=
  exists a b, s = a +:+ old +:+ b.

(** Command [m] appends the events [E] when it returns, and a prefix of
    them when it raises. *)
Definition performs (m : M unit) (E : list event) : Prop :=
  forall w, exists evs,
    w_trace (snd (m w)) = w_trace w ++ evs /\
    match fst (m w) with
    | Ok _ => evs = E
    | Raise _ => evs `prefix_of` E
    end.

Definition is_run (ev : event) : bool :=
  match ev with EvRun _ => true | _ => false end.

(** The events of one turn of the staging loop. *)
Definition stage_events (P : Pillow) (source_image : Image)
    (iconset_path : string) (size : Z) : list event :=
  EvSave (join iconset_path ("icon_" +:+ str size +:+ "x" +:+ str size +:+ ".png"))
         (resize P source_image (size, size))
  :: (if size <=? 512
      then [EvSave (join iconset_path
                      ("icon_" +:+ str size +:+ "x" +:+ str size +:+ "@2x.png"))
                   (resize P source_image (size * 2, size * 2))]
      else []).




(** ** The script body: paths, console and [__main__] *)

(** [s.rstrip('/')] *)
Fixpoint rstrip_sep (s : string) : string :=
  match s with
  | EmptyString => EmptyString
  | String c s' =>
      match rstrip_sep s' with
      | EmptyString => if Ascii.eqb c "/" then EmptyString else String c EmptyString
      | t => String c t
      end
  end.

(** ['/' in s] *)
Fixpoint has_sep (s : string) : bool :=
  match s with
  | EmptyString => false
  | String c s' => Ascii.eqb c "/" || has_sep s'
  end.

(** [p[:p.rfind('/') + 1]]: the path up to its last separator. *)
Fixpoint path_head (p : string) : string :=
  match p with
  | EmptyString => EmptyString
  | String c p' => if has_sep p then String c (path_head p') else EmptyString
  end.

(** [os.path.dirname(p)] on a POSIX host: the head without its trailing
    separators, unless it consists of separators only. *)
Definition dirname (p : string) : string :=
  let head := path_head p in
  match rstrip_sep head with
  | EmptyString => head
  | stripped => stripped
  end.

(** [s] cut at its first separator: what precedes it, and the rest from
    the separator on. *)
Fixpoint until_sep (s : string) : string * string :=
  match s with
  | EmptyString => (EmptyString, EmptyString)
  | String c s' =>
      if Ascii.eqb c "/" then (EmptyString, s)
      else let '(name, tail) := until_sep s' in (String c name, tail)
  end.

(** The console: the lines printed, oldest first. *)
Definition console : Type := list string.

(** A command of the script body: it also sees the console. *)
Definition Script (A : Type) : Type :=
  world * console -> result A * (world * console).

#[export] Instance Script_ret : MRet Script := fun A a s => (Ok a, s).

#[export] Instance Script_bind : MBind Script := fun A B k m s =>
  match m s with
  | (Ok a, s') => k a s'
  | (Raise e, s') => (Raise e, s')
  end.

(** A file-system command, run from the script body. *)
Definition lift {A : Type} (m : M A) : Script A := fun s =>
  let '(r, w') := m (fst s) in (r, (w', snd s)).

(** A computation that only returns or raises. *)
Definition lift_result {A : Type} (r : result A) : Script A := fun s => (r, s).

(** [print(line)] *)
Definition print (line : string) : Script unit := fun s =>
  (Ok tt, (fst s, snd s ++ [line])).

Section Main.
Variable P : Pillow.
Variable H : Host.
Variable spawn : list string -> filesystem -> option (Z * filesystem).

(** The home directory of a user as the host resolves it, the empty name
    standing for the current user (the HOME variable, else the password
    database); [None] when it is not known. *)
Variable userhome_of : string -> option string.

(** What replaces the tilde of the current user: the home directory
    without its trailing separators, or the tilde itself when the home
    directory is not known. *)
Definition home_prefix : string :=
  match userhome_of "" with
  | Some userhome => rstrip_sep userhome
  | None => "~"%string
  end.

(** [os.path.expanduser(path)] *)
Definition expanduser (path : string) : string :=
  match path with
  | String "~" rest =>
      let '(name, tail) := until_sep rest in
      match userhome_of name with
      | None => path
      | Some userhome =>
          match rstrip_sep userhome +:+ tail with
          | EmptyString => "/"
          | expanded => expanded
          end
      end
  | _ => path
  end.

(** The block under [if __name__ == '__main__'] (lines 126-141). *)
Definition main : Script unit :=
  icon ← lift_result (create_claudius_icon P H 1024);
  let png_path := expanduser "~/xcode_projects/iClaudius/AppIcon.png" in
  lift (save icon png_path) ≫= fun _ =>
  print ("Saved PNG: " +:+ png_path) ≫= fun _ =>
  let icns_path :=
    expanduser
      "~/xcode_projects/iClaudius/iClaudius.app/Contents/Resources/AppIcon.icns" in
  lift (makedirs (dirname icns_path)) ≫= fun _ =>
  lift (create_icns P spawn icon icns_path) ≫= fun _ =>
  print ("Saved ICNS: " +:+ icns_path) ≫= fun _ =>
  print "Icon generation complete!".

End Main.

(** ** More vocabulary *)

(** The files after the saves of a list of events. *)
Definition apply_saves (evs : list event) (m : gmap string Image)
  : gmap string Image :=
  foldl (fun m ev => match ev with
                     | EvSave path im => <[path := im]> m
                     | _ => m
                     end) m evs.

(** The paths a list of events saves to, in order. *)
Definition save_keys (evs : list event) : list string :=
  omap (fun ev => match ev with
                  | EvSave path _ => Some path
                  | _ => None
                  end) evs.

(** The exceptions [create_icns] can let through. *)
Definition create_icns_error (e : exn) : Prop :=
  e = FileNotFoundError \/ e = FileExistsError \/ e = IsADirectoryError \/
  e = NotADirectoryError \/
  exists returncode, returncode ≠ 0 /\ e = CalledProcessError returncode.

(** More stand-ins to run the model: a host without the packaging tool, a
    world where a file sits at a path, a rasteriser whose filled ellipses
    cover the whole canvas. *)
Module Reference2.

Definition tool_missing (argv : list string) (f : filesystem)
  : option (Z * filesystem) := None.

Definition world_with_file (path : string) (im : Image) : world :=
  mkWorld (mkFS ∅ {[ path := im ]}) [].

Definition world_with_dir (path : string) : world :=
  mkWorld (mkFS {[ path ]} ∅) [].

(** A host whose current user lives in /Users/claudius. *)
Definition homes (name : string) : option string :=
  if String.eqb name "" then Some "/Users/claudius"%string else None.

Definition flood : Pillow :=
  mkPillow (fun _ _ _ _ _ _ => false) (fun _ _ _ => true)
    Reference.ellipse_outline_covers Reference.textbbox Reference.text_blend
    Reference.resize.

End Reference2.

Lemma append_nil_l (s : string) : "" +:+ s = s.
Proof. reflexivity. Qed.

Lemma append_cons (c : ascii) (a b : string) :
  String c a +:+ b = String c (a +:+ b).
Proof. reflexivity. Qed.

Lemma starts_with_app (p s : string) : starts_with p (p +:+ s) = true.
Proof.
  induction p as [|c p IH]; [done|].
  rewrite append_cons. cbn [starts_with]. by rewrite Ascii.eqb_refl.
Qed.

Lemma starts_with_inv (p s : string) :
  starts_with p s = true -> exists t, s = p +:+ t.
Proof.
  revert s. induction p as [|c p IH]; intros s Hs.
  - by exists s.
  - destruct s as [|d s]; [done|]. cbn [starts_with] in Hs.
    destruct (Ascii.eqb_spec c d) as [->|]; [|done].
    destruct (IH _ Hs) as [t ->]. by exists t.
Qed.

Lemma replace_from_skip (u old new s : string) :
  replace_from (String.length u) old new (u +:+ s) = replace_from O old new s.
Proof.
  induction u as [|c u IH]; [done|].
  rewrite append_cons. cbn [String.length replace_from]. exact IH.
Qed.

Lemma replace_from_occurrence (c : ascii) (o new b : string) :
  replace_from O (String c o) new (String c o +:+ b)
  = new +:+ replace_from O (String c o) new b.
Proof.
  rewrite append_cons. cbn [replace_from]. rewrite <- append_cons.
  rewrite starts_with_app. cbn [String.length].
  by rewrite Nat.sub_1_r, Nat.pred_succ, replace_from_skip.
Qed.

Lemma find_cons (old : string) (c : ascii) (s : string) :
  find old (String c s) =
  if starts_with old (String c s) then Some O else S <$> find old s.
Proof. reflexivity. Qed.

Lemma find_app_here (old b : string) : find old (old +:+ b) = Some O.
Proof.
  destruct (old +:+ b) eqn:E.
  - destruct old; [done|]. by rewrite append_cons in E.
  - rewrite find_cons, <- E. by rewrite starts_with_app.
Qed.

Lemma find_None_replace (c : ascii) (o new s : string) :
  find (String c o) s = None -> replace_from O (String c o) new s = s.
Proof.
  induction s as [|d s IH]; [done|].
  rewrite find_cons. cbn [replace_from].
  destruct (starts_with (String c o) (String d s)); [done|].
  destruct (find (String c o) s); [done|]. intros _. by rewrite IH.
Qed.

Lemma replace_first_occurrence (c : ascii) (o new a b : string) :
  find (String c o) (a +:+ String c o +:+ b) = Some (String.length a) ->
  replace_from O (String c o) new (a +:+ String c o +:+ b)
  = a +:+ new +:+ replace_from O (String c o) new b.
Proof.
  induction a as [|d a IH].
  - intros _. apply replace_from_occurrence.
  - rewrite !(append_cons d). rewrite find_cons. cbn [replace_from String.length].
    destruct (starts_with _ (String d _)); [done|].
    destruct (find (String c o) (a +:+ String c o +:+ b)) as [i|] eqn:Hf; [|done].
    cbn. intros [= ->]. by rewrite IH.
Qed.

Lemma find_Some_split (old s : string) (i : nat) :
  find old s = Some i ->
  exists a b, s = a +:+ old +:+ b /\ String.length a = i.
Proof.
  revert i. induction s as [|d s IH]; intros i.
  - simpl. destruct (starts_with old "") eqn:Hs; [|done].
    intros [= <-]. destruct (starts_with_inv _ _ Hs) as [t Ht].
    by exists ""%string, t.
  - rewrite find_cons. destruct (starts_with old (String d s)) eqn:Hs.
    + intros [= <-]. destruct (starts_with_inv _ _ Hs) as [t Ht].
      by exists ""%string, t.
    + destruct (find old s) as [j|]; [|done]. cbn. intros [= <-].
      destruct (IH j eq_refl) as (a & b & -> & <-).
      by exists (String d a), b.
Qed.

Lemma find_None_no_substring (old s : string) :
  find old s = None <-> ~ has_substring old s.
Proof.
  split.
  - intros Hf (a & b & ->). revert Hf. induction a as [|d a IH].
    + by rewrite append_nil_l, find_app_here.
    + rewrite append_cons, find_cons. destruct (starts_with _ _); [done|].
      destruct (find old (a +:+ old +:+ b)); [done|]. intros _. by apply IH.
  - intros Hn. destruct (find old s) as [i|] eqn:Hf; [|done].
    destruct (find_Some_split _ _ _ Hf) as (a & b & -> & _).
    destruct Hn. by exists a, b.
Qed.

Lemma append_assoc (a b c : string) : (a +:+ b) +:+ c = a +:+ b +:+ c.
Proof.
  induction a as [|x a IH]; [done|].
  rewrite !append_cons. by rewrite IH.
Qed.

Lemma append_nil_r (s : string) : s +:+ "" = s.
Proof. induction s as [|x s IH]; [done|]. rewrite append_cons. by rewrite IH. Qed.

Lemma append_length (a b : string) :
  String.length (a +:+ b) = (String.length a + String.length b)%nat.
Proof.
  induction a as [|x a IH]; [done|].
  rewrite append_cons. cbn [String.length]. by rewrite IH.
Qed.

(** No occurrence of ".icns" can start before an occurrence and run into
    it: the pattern has its only dot in front. *)
Lemma icns_no_straddle (a b : string) :
  a ≠ ""%string ->
  starts_with ".icns" (a +:+ ".icns" +:+ b) = starts_with ".icns" a.
Proof.
  intros Ha. destruct a as [|c1 a]; [done|]. clear Ha.
  rewrite append_cons. cbn [starts_with].
  destruct (Ascii.eqb _ c1); [|done].
  do 4 (destruct a as [|? a];
        [reflexivity
        |rewrite append_cons; cbn [starts_with];
         destruct (Ascii.eqb _ _); [|reflexivity]]).
  reflexivity.
Qed.

Lemma replace_from_cons (old new : string) (c : ascii) (s : string) :
  replace_from O old new (String c s) =
  if starts_with old (String c s)
  then new +:+ replace_from (String.length old - 1) old new s
  else String c (replace_from O old new s).
Proof. reflexivity. Qed.

Lemma replace_icns_app (new a b : string) :
  replace (a +:+ ".icns" +:+ b) ".icns" new
  = replace a ".icns" new +:+ new +:+ replace b ".icns" new.
Proof.
  unfold replace.
  remember (String.length a) as n eqn:Hn.
  revert a Hn. induction (lt_wf n) as [n _ IH]. intros a ->.
  destruct a as [|d a].
  - rewrite !append_nil_l. apply replace_from_occurrence.
  - destruct (starts_with ".icns" (String d a)) eqn:Hs.
    + destruct (starts_with_inv _ _ Hs) as [a2 Ha2]. rewrite Ha2.
      rewrite append_assoc, !replace_from_occurrence, append_assoc.
      f_equal. apply (IH (String.length a2)); [|done].
      rewrite Ha2, append_length. cbn. lia.
    + pose proof (icns_no_straddle (String d a) b ltac:(done)) as Hn.
      rewrite Hs, (append_cons d) in Hn.
      rewrite (append_cons d), !replace_from_cons, Hn, Hs, (append_cons d).
      f_equal. apply (IH (String.length a)); [cbn; lia|done].
Qed.

Lemma replace_absent (s old new : string) :
  old ≠ ""%string -> ~ has_substring old s -> replace s old new = s.
Proof.
  intros Ho Hn. destruct old as [|c o]; [done|].
  apply find_None_replace. by apply find_None_no_substring.
Qed.

(** A relative name lands behind the directory and one separator. *)
Lemma join_relative (a b : string) :
  starts_with "/" b = false -> join a b = join a "" +:+ b.
Proof.
  intros Hb. unfold join. rewrite Hb. cbn [starts_with].
  destruct (String.eqb a "" || ends_with_sep a).
  - by rewrite append_nil_r.
  - by rewrite !append_assoc, append_nil_l.
Qed.

Lemma under_join (d name : string) :
  starts_with "/" name = false -> under d (join d name) = true.
Proof.
  intros Hn. unfold under. rewrite (join_relative d name) by done.
  apply starts_with_app.
Qed.

Lemma join_inj (d a b : string) :
  starts_with "/" a = false -> starts_with "/" b = false ->
  join d a = join d b -> a = b.
Proof.
  intros Ha Hb. rewrite (join_relative d a), (join_relative d b) by done.
  apply (inj (String.app _)).
Qed.


(** ** Commands and their events *)

Lemma performs_ret : performs (mret tt) [].
Proof. intros w. exists []. by rewrite app_nil_r. Qed.

Lemma performs_bind (m1 m2 : M unit) (E1 E2 : list event) :
  performs m1 E1 -> performs m2 E2 ->
  performs (m1 ≫= fun _ => m2) (E1 ++ E2).
Proof.
  intros H1 H2 w. unfold mbind, M_bind.
  destruct (H1 w) as (evs1 & Ht1 & Hr1).
  destruct (m1 w) as [[[]|e] w1]; cbn [fst snd] in *.
  - subst evs1. destruct (H2 w1) as (evs2 & Ht2 & Hr2).
    exists (E1 ++ evs2). rewrite Ht2, Ht1, app_assoc. split; [done|].
    destruct (fst (m2 w1)); [by subst|by apply prefix_app].
  - exists evs1. split; [done|]. by apply prefix_app_r.
Qed.

Lemma performs_for {A : Type} (l : list A) (body : A -> M unit)
    (E : A -> list event) :
  (forall x, performs (body x) (E x)) ->
  performs (for_ l body) (l ≫= E).
Proof.
  intros Hb. induction l as [|x l IH]; [apply performs_ret|].
  cbn [for_]. by apply performs_bind.
Qed.

Lemma save_run (im : Image) (path : string) (w : world) :
  save im path w =
  if bool_decide (path ∈ dirs (w_fs w)) then (Raise IsADirectoryError, w)
  else (Ok tt, mkWorld (mkFS (dirs (w_fs w)) (<[path := im]> (files (w_fs w))))
                       (w_trace w ++ [EvSave path im])).
Proof. unfold save, mbind, M_bind, get_fs. cbn. by destruct (bool_decide _). Qed.

Lemma makedirs_run (path : string) (w : world) :
  makedirs path w =
  if String.eqb path "" then (Raise FileNotFoundError, w)
  else if bool_decide (is_Some (files (w_fs w) !! path))
       then (Raise FileExistsError, w)
       else (Ok tt, mkWorld (mkFS ({[path]} ∪ dirs (w_fs w)) (files (w_fs w)))
                            (w_trace w ++ [EvMakedirs path])).
Proof.
  unfold makedirs, mbind, M_bind, get_fs. cbn.
  destruct (String.eqb path ""); [done|]. by destruct (bool_decide _).
Qed.

Lemma rmtree_run (path : string) (w : world) :
  rmtree path w =
  if bool_decide (path ∈ dirs (w_fs w)) then
    (Ok tt,
     mkWorld (mkFS (filter (fun d => d ≠ path ∧ under path d = false)
                           (dirs (w_fs w)))
                   (filter (fun kv => under path (fst kv) = false)
                           (files (w_fs w))))
             (w_trace w ++ [EvRmtree path]))
  else if bool_decide (is_Some (files (w_fs w) !! path))
       then (Raise NotADirectoryError, w)
       else (Raise FileNotFoundError, w).
Proof.
  unfold rmtree, mbind, M_bind, get_fs. cbn.
  destruct (bool_decide (path ∈ _)); [done|]. by destruct (bool_decide _).
Qed.

Lemma performs_save (im : Image) (path : string) :
  performs (save im path) [EvSave path im].
Proof.
  intros w. rewrite save_run. destruct (bool_decide _); cbn.
  - exists []. rewrite app_nil_r. split; [done|apply prefix_nil].
  - by exists [EvSave path im].
Qed.

Lemma performs_makedirs (path : string) :
  performs (makedirs path) [EvMakedirs path].
Proof.
  intros w. rewrite makedirs_run.
  destruct (String.eqb path ""); [|destruct (bool_decide _)]; cbn;
    try (exists []; rewrite app_nil_r; split; [done|apply prefix_nil]).
  by exists [EvMakedirs path].
Qed.

Section ExporterFacts.
Variable P : Pillow.
Variable spawn : list string -> filesystem -> option (Z * filesystem).

Lemma performs_stage_size (src : Image) (p : string) (size : Z) :
  performs (stage_size P src p size) (stage_events P src p size).
Proof.
  unfold stage_size, stage_events.
  apply (performs_bind _ _ [_]); [apply performs_save|].
  destruct (size <=? 512); [apply performs_save|apply performs_ret].
Qed.

Lemma performs_stage_iconset (src : Image) (out : string) :
  performs (stage_iconset P src out)
    (EvMakedirs (iconset_path_of out)
     :: (sizes ≫= stage_events P src (iconset_path_of out))).
Proof.
  unfold stage_iconset.
  apply (performs_bind _ _ [_]); [apply performs_makedirs|].
  apply performs_for. intros size. apply performs_stage_size.
Qed.

(** What [create_icns] does once the iconset is staged. *)
Lemma create_icns_run (src : Image) (out : string) (w : world) :
  create_icns P spawn src out w =
  let p := iconset_path_of out in
  match stage_iconset P src out w with
  | (Raise e, w1) => (Raise e, w1)
  | (Ok _, w1) =>
      match spawn (iconutil_argv p out) (w_fs w1) with
      | None => (Raise FileNotFoundError, w1)
      | Some (returncode, f2) =>
          let w2 := mkWorld f2 (w_trace w1 ++ [EvRun (iconutil_argv p out)]) in
          if returncode =? 0 then rmtree p w2
          else (Raise (CalledProcessError returncode), w2)
      end
  end.
Proof.
  unfold create_icns. cbn zeta. unfold mbind at 1. unfold M_bind at 1.
  destruct (stage_iconset P src out w) as [[[]|e] w1]; [|done].
  unfold mbind at 1. unfold M_bind at 1.
  unfold subprocess_run. unfold mbind at 1 2 3. unfold M_bind, get_fs. cbn.
  destruct (spawn _ _) as [[code f2]|]; [|done]. cbn.
  destruct (code =? 0); [|done]. done.
Qed.

End ExporterFacts.


(** ** The trace of [create_icns] *)

(** In a trace with a single run event, what precedes it is determined. *)
Lemma split_at_run (E t pre post : list event) (x y : event) :
  Forall (fun e => is_run e = false) E ->
  Forall (fun e => is_run e = false) t ->
  is_run x = true ->
  E ++ y :: t = pre ++ x :: post -> pre = E.
Proof.
  intros HE Ht Hx. revert pre.
  induction HE as [|e E He HE IH]; intros [|e' pre] Heq; simplify_eq/=.
  - done.
  - apply Forall_app in Ht as [_ Ht]. apply Forall_cons in Ht as [Ht _]. congruence.
  - congruence.
  - f_equal. by apply IH.
Qed.

Lemma no_run_in_stage_events (P : Pillow) (src : Image) (p : string) (l : list Z) :
  Forall (fun e => is_run e = false) (l ≫= stage_events P src p).
Proof.
  induction l as [|size l IH]; [constructor|].
  cbn [mbind list_bind]. apply Forall_app. split; [|done].
  unfold stage_events. destruct (size <=? 512); repeat constructor.
Qed.

Section TraceFacts.
Variable P : Pillow.
Variable spawn : list string -> filesystem -> option (Z * filesystem).

Lemma create_icns_trace (src : Image) (out : string) (w : world) :
  let p := iconset_path_of out in
  let E := EvMakedirs p :: (sizes ≫= stage_events P src p) in
  exists evs,
    w_trace (snd (create_icns P spawn src out w)) = w_trace w ++ evs /\
    (evs `prefix_of` E \/
     evs = E ++ [EvRun (iconutil_argv p out)] \/
     evs = E ++ [EvRun (iconutil_argv p out); EvRmtree p]).
Proof.
  intros p E. rewrite create_icns_run.
  destruct (performs_stage_iconset P src out w) as (evs & Ht & Hr).
  fold p in Hr. fold E in Hr. cbn zeta. fold p.
  destruct (stage_iconset P src out w) as [[[]|e] w1]; cbn [fst snd] in *.
  2:{ exists evs. auto. }
  subst evs. destruct (spawn _ _) as [[code f2]|].
  2:{ exists E. auto. }
  destruct (code =? 0).
  - rewrite rmtree_run. cbn [w_fs w_trace].
    destruct (bool_decide _); [|destruct (bool_decide _)]; cbn [snd w_trace].
    + exists (E ++ [EvRun (iconutil_argv p out); EvRmtree p]).
      rewrite Ht, <- !app_assoc. auto.
    + exists (E ++ [EvRun (iconutil_argv p out)]). rewrite Ht, <- !app_assoc. auto.
    + exists (E ++ [EvRun (iconutil_argv p out)]). rewrite Ht, <- !app_assoc. auto.
  - exists (E ++ [EvRun (iconutil_argv p out)]). cbn [snd w_trace].
    rewrite Ht, <- !app_assoc. auto.
Qed.

(** When the packaging tool is started, the staging went through. *)
Lemma staged_before_run (src : Image) (out : string) (w w' : world)
    (r : result unit) (pre post : list event) (argv : list string) :
  create_icns P spawn src out w = (r, w') ->
  w_trace w' = w_trace w ++ pre ++ EvRun argv :: post ->
  pre = EvMakedirs (iconset_path_of out)
        :: (sizes ≫= stage_events P src (iconset_path_of out)).
Proof.
  intros Hrun Htr.
  destruct (create_icns_trace src out w) as (evs & Ht & Hcases).
  rewrite Hrun in Ht. cbn [snd] in Ht. rewrite Ht in Htr.
  apply app_inv_head in Htr. subst evs.
  set (p := iconset_path_of out) in *.
  set (E := EvMakedirs p :: _) in *.
  assert (HE : Forall (fun e => is_run e = false) E).
  { constructor; [done|]. apply no_run_in_stage_events. }
  destruct Hcases as [[k Hk]|[Hk|Hk]].
  - rewrite Hk in HE. rewrite <- app_assoc in HE.
    apply Forall_app in HE as [_ HE]. apply Forall_cons in HE as [HE _]. done.
  - symmetry in Hk. by apply (split_at_run E []) in Hk.
  - symmetry in Hk. apply (split_at_run E [EvRmtree p]) in Hk; [done..| |done].
    by repeat constructor.
Qed.

End TraceFacts.


(** ** Claims on the Exporter *)

Lemma NoDup_join (d : string) (names : list string) :
  Forall (fun n => starts_with "/" n = false) names ->
  NoDup names -> NoDup (join d <$> names).
Proof.
  intros Hrel Hnd.
  induction Hnd as [|n names Hn Hnd IH]; [constructor|].
  apply Forall_cons in Hrel as [Hrel1 Hrel]. cbn. constructor; [|by apply IH].
  intros (n' & Heq & Hin)%list_elem_of_fmap. apply Hn.
  apply join_inj in Heq; [by subst|done|].
  by apply (proj1 (Forall_forall _ _) Hrel).
Qed.

(** C1. When [create_icns] reaches the packaging command, it has created the
    staging directory and written into it exactly thirteen images, in this
    order: for each of 16, 32, 64, 128, 256, 512 the file icon_NxN.png
    followed by icon_NxN@2x.png, then icon_1024x1024.png.  Seven names are
    base names (one per resolution of the list), six carry the @2x marker
    (one per resolution up to 512); the thirteen paths are distinct and lie
    inside the staging directory. *)
Theorem iconset_has_thirteen_images (P : Pillow)
    (spawn : list string -> filesystem -> option (Z * filesystem))
    (src : Image) (out : string) (w w' : world) (r : result unit)
    (pre post : list event) (argv : list string) :
  create_icns P spawn src out w = (r, w') ->
  w_trace w' = w_trace w ++ pre ++ EvRun argv :: post ->
  let p := iconset_path_of out in
  let base_name := fun N => "icon_" +:+ str N +:+ "x" +:+ str N +:+ ".png" in
  let retina_name := fun N => "icon_" +:+ str N +:+ "x" +:+ str N +:+ "@2x.png" in
  exists saved : list (string * Image),
    pre = EvMakedirs p :: ((fun f => EvSave (join p (fst f)) (snd f)) <$> saved) /\
    saved.*1 =
      [ "icon_16x16.png"; "icon_16x16@2x.png";
        "icon_32x32.png"; "icon_32x32@2x.png";
        "icon_64x64.png"; "icon_64x64@2x.png";
        "icon_128x128.png"; "icon_128x128@2x.png";
        "icon_256x256.png"; "icon_256x256@2x.png";
        "icon_512x512.png"; "icon_512x512@2x.png";
        "icon_1024x1024.png" ]%string /\
    filter (fun n => find "@2x" n = None) (saved.*1)
      = base_name <$> [16; 32; 64; 128; 256; 512; 1024] /\
    filter (fun n => find "@2x" n ≠ None) (saved.*1)
      = retina_name <$> [16; 32; 64; 128; 256; 512] /\
    length saved = 13%nat /\
    NoDup (join p <$> saved.*1) /\
    Forall (fun n => under p (join p n) = true) (saved.*1).
Proof.
  intros Hrun Htr p base_name retina_name.
  pose proof (staged_before_run P spawn src out w w' r pre post argv Hrun Htr)
    as ->. fold p.
  exists [ ("icon_16x16.png", resize P src (16, 16));
           ("icon_16x16@2x.png", resize P src (16 * 2, 16 * 2));
           ("icon_32x32.png", resize P src (32, 32));
           ("icon_32x32@2x.png", resize P src (32 * 2, 32 * 2));
           ("icon_64x64.png", resize P src (64, 64));
           ("icon_64x64@2x.png", resize P src (64 * 2, 64 * 2));
           ("icon_128x128.png", resize P src (128, 128));
           ("icon_128x128@2x.png", resize P src (128 * 2, 128 * 2));
           ("icon_256x256.png", resize P src (256, 256));
           ("icon_256x256@2x.png", resize P src (256 * 2, 256 * 2));
           ("icon_512x512.png", resize P src (512, 512));
           ("icon_512x512@2x.png", resize P src (512 * 2, 512 * 2));
           ("icon_1024x1024.png", resize P src (1024, 1024)) ]%string.
  split; [reflexivity|]. split; [reflexivity|].
  split; [reflexivity|]. split; [reflexivity|]. split; [reflexivity|].
  cbn [fmap list_fmap fst].
  assert (Hrel : Forall (fun n => starts_with "/" n = false)
    [ "icon_16x16.png"; "icon_16x16@2x.png"; "icon_32x32.png";
      "icon_32x32@2x.png"; "icon_64x64.png"; "icon_64x64@2x.png";
      "icon_128x128.png"; "icon_128x128@2x.png"; "icon_256x256.png";
      "icon_256x256@2x.png"; "icon_512x512.png"; "icon_512x512@2x.png";
      "icon_1024x1024.png" ]%string) by (repeat constructor).
  split.
  - apply (NoDup_join p _ Hrel). apply (bool_decide_unpack _). by vm_compute.
  - eapply Forall_impl; [exact Hrel|]. intros n Hn. by apply under_join.
Qed.


(** ** Staging into a fresh directory succeeds *)

Lemma join_not_dir (d name : string) :
  d ≠ ""%string -> name ≠ ""%string -> starts_with "/" name = false ->
  join d name ≠ d.
Proof.
  intros Hd Hname Hrel Heq. unfold join in Heq. rewrite Hrel in Heq.
  destruct (String.eqb_spec d ""); [done|]. cbn [orb] in Heq.
  destruct (ends_with_sep d).
  - rewrite <- (append_nil_r d) in Heq at 2. by apply (inj (String.app d)) in Heq.
  - apply (f_equal String.length) in Heq. rewrite !append_length in Heq.
    cbn in Heq. lia.
Qed.

(** The names of the loop are relative and not empty. *)
Lemma icon_name_relative (mid tail : string) :
  starts_with "/" ("icon_" +:+ mid +:+ tail) = false /\
  "icon_" +:+ mid +:+ tail ≠ ""%string.
Proof. done. Qed.

Section StagingFacts.
Variable P : Pillow.

Lemma save_ok (im : Image) (path : string) (w : world) :
  path ∉ dirs (w_fs w) ->
  save im path w =
  (Ok tt, mkWorld (mkFS (dirs (w_fs w)) (<[path := im]> (files (w_fs w))))
                  (w_trace w ++ [EvSave path im])).
Proof. intros Hp. rewrite save_run. by rewrite bool_decide_eq_false_2. Qed.

Lemma stage_size_ok (src : Image) (p : string) (size : Z) (w : world) :
  (forall name, name ≠ ""%string -> starts_with "/" name = false ->
                join p name ∉ dirs (w_fs w)) ->
  exists w1,
    stage_size P src p size w = (Ok tt, w1) /\
    dirs (w_fs w1) = dirs (w_fs w) /\
    w_trace w1 = w_trace w ++ stage_events P src p size.
Proof.
  intros Hfree. unfold stage_size, stage_events.
  unfold mbind at 1. unfold M_bind at 1.
  rewrite save_ok by (apply Hfree; apply icon_name_relative).
  destruct (size <=? 512).
  - rewrite save_ok by (apply Hfree; apply icon_name_relative).
    eexists. split; [done|]. cbn. by rewrite <- app_assoc.
  - eexists. split; [done|]. done.
Qed.

Lemma staging_loop_ok (src : Image) (p : string) (l : list Z) (w : world) :
  (forall name, name ≠ ""%string -> starts_with "/" name = false ->
                join p name ∉ dirs (w_fs w)) ->
  exists w1,
    for_ l (stage_size P src p) w = (Ok tt, w1) /\
    dirs (w_fs w1) = dirs (w_fs w) /\
    w_trace w1 = w_trace w ++ (l ≫= stage_events P src p).
Proof.
  revert w. induction l as [|size l IH]; intros w Hfree.
  - exists w. by rewrite app_nil_r.
  - destruct (stage_size_ok src p size w Hfree) as (w1 & Hrun & Hd & Ht).
    destruct (IH w1) as (w2 & Hrun2 & Hd2 & Ht2).
    { by rewrite Hd. }
    exists w2. cbn [for_]. unfold mbind at 1. unfold M_bind at 1.
    rewrite Hrun, Hrun2. split; [done|]. split; [congruence|].
    rewrite Ht2, Ht. cbn [mbind list_bind]. by rewrite <- app_assoc.
Qed.

(** On a file system with nothing at the staging path and no directory
    inside it, the staging goes through. *)
Lemma stage_iconset_ok (src : Image) (out : string) (w : world) :
  let p := iconset_path_of out in
  p ≠ ""%string ->
  files (w_fs w) !! p = None ->
  (forall d, d ∈ dirs (w_fs w) -> under p d = false) ->
  exists w1,
    stage_iconset P src out w = (Ok tt, w1) /\
    dirs (w_fs w1) = {[p]} ∪ dirs (w_fs w) /\
    w_trace w1 = w_trace w ++ EvMakedirs p :: (sizes ≫= stage_events P src p).
Proof.
  intros p Hp Hfile Hfresh. unfold stage_iconset. fold p.
  unfold mbind at 1. unfold M_bind at 1. rewrite makedirs_run.
  destruct (String.eqb_spec p ""); [done|].
  rewrite bool_decide_eq_false_2 by (rewrite Hfile; by intros [? ?]).
  set (w0 := mkWorld _ _).
  destruct (staging_loop_ok src p sizes w0) as (w1 & Hrun & Hd & Ht).
  { intros name Hname Hrel. cbn. intros [Heq|Hin]%elem_of_union.
    - apply elem_of_singleton in Heq. by apply join_not_dir in Heq.
    - apply Hfresh in Hin. by rewrite under_join in Hin. }
  exists w1. rewrite Hrun. split; [done|]. split; [by rewrite Hd|].
  rewrite Ht. cbn. by rewrite <- app_assoc.
Qed.

(** A staging that returned left the directory in place. *)
Lemma stage_iconset_dir (src : Image) (out : string) (w w1 : world) :
  stage_iconset P src out w = (Ok tt, w1) ->
  iconset_path_of out ∈ dirs (w_fs w1).
Proof.
  unfold stage_iconset. set (p := iconset_path_of out).
  unfold mbind at 1. unfold M_bind at 1. rewrite makedirs_run.
  destruct (String.eqb p ""); [done|]. destruct (bool_decide _); [done|].
  set (w0 := mkWorld _ _).
  assert (Hp : p ∈ dirs (w_fs w0)) by (cbn; set_solver).
  clearbody w0. revert w0 Hp. generalize sizes as l.
  induction l as [|size l IH]; intros w0 Hp Hrun.
  - unfold for_, mret, M_ret in Hrun. by simplify_eq.
  - cbn [for_] in Hrun. unfold mbind at 1 in Hrun. unfold M_bind at 1 in Hrun.
    unfold stage_size in Hrun. unfold mbind at 1 in Hrun. unfold M_bind at 1 in Hrun.
    rewrite save_run in Hrun. destruct (bool_decide _); [done|].
    destruct (size <=? 512).
    + rewrite save_run in Hrun. cbn [w_fs dirs] in Hrun.
      destruct (bool_decide _); [done|]. by apply IH in Hrun.
    + by apply IH in Hrun.
Qed.

End StagingFacts.


(** A whole run on a fresh staging path, with a tool that leaves the file
    system as it found it and exits with [code]. *)
Lemma create_icns_on_fresh (P : Pillow)
    (spawn : list string -> filesystem -> option (Z * filesystem))
    (src : Image) (out : string) (w : world) (code : Z) :
  let p := iconset_path_of out in
  let argv := iconutil_argv p out in
  let E := EvMakedirs p :: (sizes ≫= stage_events P src p) in
  p ≠ ""%string ->
  files (w_fs w) !! p = None ->
  (forall d, d ∈ dirs (w_fs w) -> under p d = false) ->
  (forall f, spawn argv f = Some (code, f)) ->
  exists w1 w',
    stage_iconset P src out w = (Ok tt, w1) /\
    create_icns P spawn src out w
    = (if code =? 0 then Ok tt else Raise (CalledProcessError code), w') /\
    w_trace w' = w_trace w ++ E
                 ++ EvRun argv :: (if code =? 0 then [EvRmtree p] else []).
Proof.
  intros p argv E Hp Hfile Hfresh Hspawn.
  destruct (stage_iconset_ok P src out w Hp Hfile Hfresh) as (w1 & Hst & Hd & Ht).
  fold p in Hd, Ht. fold E in Ht.
  exists w1. rewrite create_icns_run, Hst. cbn zeta. fold p argv.
  rewrite Hspawn. destruct (code =? 0).
  - rewrite rmtree_run. cbn [w_fs w_trace].
    rewrite bool_decide_eq_true_2
      by (rewrite Hd; apply elem_of_union_l; by apply elem_of_singleton).
    eexists. split; [done|]. split; [done|]. cbn [w_trace].
    by rewrite Ht, <- !app_assoc.
  - eexists. split; [done|]. split; [done|]. cbn [w_trace].
    by rewrite Ht, <- !app_assoc.
Qed.

Lemma iconset_has_thirteen_images_witness :
  exists saved : list (string * Image),
    EvMakedirs "AppIcon.iconset"
    :: (sizes ≫= stage_events Reference.pillow (Reference.test_card 64)
                   "AppIcon.iconset")
    = EvMakedirs "AppIcon.iconset"
      :: ((fun f => EvSave (join "AppIcon.iconset" (fst f)) (snd f)) <$> saved) /\
    length saved = 13%nat.
Proof.
  destruct (create_icns_on_fresh Reference.pillow Reference.tool_ok
              (Reference.test_card 64) "AppIcon.icns" Reference.empty_world 0)
    as (w1 & w' & _ & Hrun & Htr).
  { discriminate. }
  { apply lookup_empty. }
  { intros d Hd. by apply not_elem_of_empty in Hd. }
  { reflexivity. }
  destruct (iconset_has_thirteen_images Reference.pillow Reference.tool_ok
              (Reference.test_card 64) "AppIcon.icns" Reference.empty_world
              w' _ _ _ _ Hrun Htr)
    as (saved & Hpre & _ & _ & _ & Hlen & _).
  exists saved. split; [exact Hpre|exact Hlen].
Defined.




(** C10. When [create_icns] reaches the packaging command, and the
    library's [resize] returns an image of the size it is asked for: for
    every resolution N of the list the file icon_NxN.png holds the source
    image resized to N x N; for every N up to 512 the file icon_NxN@2x.png
    holds the source image itself resized to 2N x 2N; every image written
    is such a resize of the source; no image written is wider or higher
    than 1024, and one is 1024 x 1024. *)
Theorem retina_variants_resize_the_source (P : Pillow)
    (spawn : list string -> filesystem -> option (Z * filesystem))
    (src : Image) (out : string) (w w' : world) (r : result unit)
    (pre post : list event) (argv : list string) :
  (forall im size, im_size (resize P im size) = size) ->
  create_icns P spawn src out w = (r, w') ->
  w_trace w' = w_trace w ++ pre ++ EvRun argv :: post ->
  let p := iconset_path_of out in
  (forall N, N ∈ sizes ->
     EvSave (join p ("icon_" +:+ str N +:+ "x" +:+ str N +:+ ".png"))
            (resize P src (N, N)) ∈ pre /\
     im_size (resize P src (N, N)) = (N, N)) /\
  (forall N, N ∈ sizes -> N <= 512 ->
     EvSave (join p ("icon_" +:+ str N +:+ "x" +:+ str N +:+ "@2x.png"))
            (resize P src (N * 2, N * 2)) ∈ pre /\
     im_size (resize P src (N * 2, N * 2)) = (2 * N, 2 * N)) /\
  (forall path im, EvSave path im ∈ pre ->
     exists N, N ∈ sizes /\
       (im = resize P src (N, N) \/
        (N <= 512 /\ im = resize P src (N * 2, N * 2)))) /\
  (forall path im, EvSave path im ∈ pre ->
     fst (im_size im) <= 1024 /\ snd (im_size im) <= 1024) /\
  (exists path im, EvSave path im ∈ pre /\ im_size im = (1024, 1024)).
Proof.
  intros Hsize Hrun Htr p.
  pose proof (staged_before_run P spawn src out w w' r pre post argv Hrun Htr)
    as ->. fold p.
  assert (Hall : forall path im,
    EvSave path im ∈ EvMakedirs p :: (sizes ≫= stage_events P src p) ->
    exists N, N ∈ sizes /\
      (im = resize P src (N, N) \/
       (N <= 512 /\ im = resize P src (N * 2, N * 2)))).
  { intros path im [|Hin]%elem_of_cons; [done|].
    apply list_elem_of_bind in Hin as (N & Hin & HN).
    exists N. split; [done|]. unfold stage_events in Hin.
    apply elem_of_cons in Hin as [Heq|Hin]; [left; congruence|].
    right. destruct (Z.leb_spec N 512); [|by apply elem_of_nil in Hin].
    apply list_elem_of_singleton in Hin. split; [done|congruence]. }
  split; [|split; [|split; [exact Hall|split]]].
  - intros N HN. split; [|apply Hsize].
    apply elem_of_cons. right. apply list_elem_of_bind. exists N.
    split; [|done]. apply elem_of_cons. by left.
  - intros N HN Hle. split; [|rewrite Hsize; f_equal; lia].
    apply elem_of_cons. right. apply list_elem_of_bind. exists N.
    split; [|done]. unfold stage_events. apply elem_of_cons. right.
    apply Z.leb_le in Hle. rewrite Hle. by apply list_elem_of_singleton.
  - intros path im Hin. destruct (Hall path im Hin) as (N & HN & Him).
    assert (N <= 1024).
    { unfold sizes in HN. repeat (apply elem_of_cons in HN as [->|HN]; [lia|]).
      by apply elem_of_nil in HN. }
    destruct Him as [->|[Hle ->]]; rewrite Hsize; cbn; lia.
  - exists (join p "icon_1024x1024.png"), (resize P src (1024, 1024)).
    split; [|apply Hsize].
    apply elem_of_cons. right. apply list_elem_of_bind. exists 1024.
    split; [by apply elem_of_cons; left|].
    unfold sizes. by repeat first [apply list_elem_of_here|apply list_elem_of_further].
Qed.

(** With nearest-neighbour resampling and a 64 x 64 test card, the @2x
    image of resolution 16 is not what enlarging the 16 x 16 copy gives:
    the pixel at (1, 0) comes from column 2 of the source, not column 0. *)
Lemma retina_differs_from_enlarged_copy :
  Reference.pixel_at
    (Reference.resize (Reference.test_card 64) (32, 32)) 1 0
  = mkRGBA 2 0 0 255 /\
  Reference.pixel_at
    (Reference.resize (Reference.resize (Reference.test_card 64) (16, 16))
       (32, 32)) 1 0
  = mkRGBA 0 0 0 255.
Proof. split; vm_compute; reflexivity. Qed.

Lemma retina_variants_resize_the_source_witness :
  EvSave (join "AppIcon.iconset" "icon_16x16@2x.png")
         (Reference.resize (Reference.test_card 64) (32, 32))
  ∈ EvMakedirs "AppIcon.iconset"
    :: (sizes ≫= stage_events Reference.pillow (Reference.test_card 64)
                   "AppIcon.iconset").
Proof.
  destruct (create_icns_on_fresh Reference.pillow Reference.tool_ok
              (Reference.test_card 64) "AppIcon.icns" Reference.empty_world 0)
    as (w1 & w' & _ & Hrun & Htr).
  { discriminate. }
  { apply lookup_empty. }
  { intros d Hd. by apply not_elem_of_empty in Hd. }
  { reflexivity. }
  destruct (retina_variants_resize_the_source Reference.pillow Reference.tool_ok
              (Reference.test_card 64) "AppIcon.icns" Reference.empty_world
              w' _ _ _ _ (fun _ _ => eq_refl) Hrun Htr)
    as (_ & Hretina & _).
  exact (proj1 (Hretina 16 ltac:(unfold sizes; apply elem_of_cons; by left)
                  ltac:(lia))).
Defined.





(** ** The canvas under drawing *)




Lemma draw_all_size (P : Pillow) (cs : list draw_call) (im : Image) :
  im_size (foldl (draw P) im cs) = im_size im.
Proof. revert im. induction cs as [|c cs IH]; intros im; [done|]. cbn. by rewrite IH. Qed.


Lemma image_new_ok (w h : Z) (c : RGBA) :
  0 <= w -> 0 <= h ->
  image_new (w, h) c
  = Ok (mkImage (w, h) (replicate (Z.to_nat h) (replicate (Z.to_nat w) c))).
Proof.
  intros Hw Hh. unfold image_new. cbn [fst snd].
  destruct (Z.ltb_spec w 0); [lia|]. destruct (Z.ltb_spec h 0); [lia|]. done.
Qed.



(** A call recomputes each pixel from the pixel itself. *)
Lemma getpixel_draw (P : Pillow) (im : Image) (c : draw_call) (x y : Z) :
  getpixel (draw P im c) (x, y) = call_pixel P c x y <$> getpixel im (x, y).
Proof.
  unfold getpixel. cbn [fst snd].
  destruct (Z.leb_spec 0 x); [|done]. destruct (Z.leb_spec 0 y); [|done].
  cbn [andb draw im_rows]. unfold paint. rewrite list_lookup_imap.
  destruct (im_rows im !! Z.to_nat y) as [row|]; [|done]. cbn.
  rewrite list_lookup_imap. rewrite !Z2Nat.id by done. done.
Qed.

Lemma getpixel_draw_all (P : Pillow) (cs : list draw_call) (im : Image) (x y : Z) :
  getpixel (foldl (draw P) im cs) (x, y)
  = (fun px => foldl (fun px c => call_pixel P c x y px) px cs)
    <$> getpixel im (x, y).
Proof.
  revert im. induction cs as [|c cs IH]; intros im.
  - cbn. by destruct (getpixel im (x, y)).
  - cbn [foldl]. rewrite IH, getpixel_draw. by destruct (getpixel im (x, y)).
Qed.

Lemma getpixel_new (w h x y : Z) (c : RGBA) :
  0 <= x < w -> 0 <= y < h ->
  getpixel (mkImage (w, h) (replicate (Z.to_nat h) (replicate (Z.to_nat w) c)))
           (x, y) = Some c.
Proof.
  intros Hx Hy. unfold getpixel. cbn [fst snd im_rows].
  destruct (Z.leb_spec 0 x); [|lia]. destruct (Z.leb_spec 0 y); [|lia].
  cbn [andb]. rewrite lookup_replicate_2 by lia. cbn.
  apply lookup_replicate_2. lia.
Qed.

(** ** Font resolution *)

Lemma load_font_cases (H : Host) (size : Z) :
  load_font H size =
  Ok (if font_loads H times_ttc (font_size size)
      then TrueType times_ttc (font_size size)
      else if font_loads H times_new_roman_ttf (font_size size)
           then TrueType times_new_roman_ttf (font_size size)
           else DefaultFont).
Proof.
  unfold load_font, truetype, load_default, font_loads.
  destruct (font_error H times_ttc _); [|done].
  by destruct (font_error H times_new_roman_ttf _).
Qed.

Lemma draw_calls_ok (P : Pillow) (H : Host) (size : Z) :
  exists font,
    load_font H size = Ok font /\
    draw_calls P H size
    = Ok (gradient_calls size ++ ring_calls size ++
          glyph_calls P size font ++ dot_calls size).
Proof.
  unfold draw_calls. rewrite load_font_cases. eexists. split; done.
Qed.

Lemma create_claudius_icon_ok (P : Pillow) (H : Host) (size : Z) :
  0 <= size ->
  exists font,
    load_font H size = Ok font /\
    create_claudius_icon P H size
    = Ok (foldl (draw P)
            (mkImage (size, size)
               (replicate (Z.to_nat size)
                  (replicate (Z.to_nat size) (mkRGBA 0 0 0 0))))
            (gradient_calls size ++ ring_calls size ++
             glyph_calls P size font ++ dot_calls size)).
Proof.
  intros Hsize. destruct (draw_calls_ok P H size) as (font & Hfont & Hcalls).
  exists font. split; [done|].
  unfold create_claudius_icon. rewrite image_new_ok, Hcalls by done. done.
Qed.

(** ** Claims on the Renderer *)




(** ** The gradient *)

(** Truncating [a + b * (i / size)] is floor division on integers. *)
Lemma int_of_Q_affine (a b i size : Z) :
  0 <= a -> 0 <= b -> 0 <= i -> 0 < size ->
  int_of_Q (inject_Z a + inject_Z b * true_div i size)%Q = a + b * i / size.
Proof.
  intros Ha Hb Hi Hsize. destruct size as [|s|s]; [lia| |lia].
  unfold int_of_Q, true_div, Qdiv, Qinv, Qmult, Qplus, inject_Z. cbn.
  rewrite !Pos.mul_1_l.
  rewrite Z.quot_div_nonneg by nia.
  replace (a * Z.pos s + b * (i * 1) * 1) with (b * i + a * Z.pos s) by ring.
  rewrite Z.div_add by lia. lia.
Qed.

Lemma gradient_color_closed (size i : Z) :
  0 <= i -> 0 < size ->
  gradient_color size i
  = RGBa (88 + (128 - 88) * i / size) (28 + (48 - 28) * i / size)
         (108 + (138 - 108) * i / size) 255.
Proof.
  intros Hi Hsize. unfold gradient_color. cbn zeta.
  change 88%Q with (inject_Z 88). change 40%Q with (inject_Z 40).
  change 28%Q with (inject_Z 28). change 20%Q with (inject_Z 20).
  change 108%Q with (inject_Z 108). change 30%Q with (inject_Z 30).
  by rewrite !int_of_Q_affine by lia.
Qed.

Lemma font_size_closed (size : Z) :
  0 <= size -> font_size size = 55 * size / 100.
Proof.
  intros Hsize. unfold font_size, int_of_Q. cbn.
  rewrite Z.quot_div_nonneg by lia. f_equal. lia.
Qed.

(** The pixel (x, y) after the background loop. *)
Lemma gradient_pixel (P : Pillow) (size x y : Z) (l : list Z) (px : RGBA) :
  0 <= x <= size ->
  foldl (fun px c => call_pixel P c x y px) px
        ((fun i => DrawLine 0 i size i (gradient_color size i)) <$> l)
  = if decide (y ∈ l) then ink (gradient_color size y) else px.
Proof.
  intros Hx. revert px. induction l as [|i l IH]; intros px.
  - cbn. by rewrite decide_False by apply not_elem_of_nil.
  - cbn [fmap list_fmap foldl]. rewrite IH. clear IH.
    cbn [call_pixel]. rewrite Z.eqb_refl. unfold hline_covers.
    destruct (Z.eqb_spec y i) as [->|Hne].
    + rewrite Z.min_l, Z.max_r by lia.
      destruct (Z.leb_spec 0 x); [|lia]. destruct (Z.leb_spec x size); [|lia].
      cbn [andb]. rewrite (decide_True (P := i ∈ i :: l)) by apply list_elem_of_here.
      by destruct (decide (i ∈ l)).
    + cbn [andb]. destruct (decide (y ∈ l)) as [Hin|Hnin].
      * by rewrite decide_True by (by apply list_elem_of_further).
      * rewrite decide_False; [done|].
        intros [?|?]%elem_of_cons; done.
Qed.



(** ** Agreement with binary64 arithmetic *)

Lemma color_eqb_eq (c d : color) : color_eqb c d = true -> c = d.
Proof.
  destruct c, d; cbn; try done;
    rewrite ?andb_true_iff, ?Z.eqb_eq; intros; f_equal; tauto.
Qed.

Lemma binary64_agrees_at_sound (size : Z) :
  binary64_agrees_at size = true ->
  Binary64.font_size size = font_size size /\
  forall i, 0 <= i < size ->
    Binary64.gradient_color size i = gradient_color size i.
Proof.
  unfold binary64_agrees_at. rewrite andb_true_iff, Z.eqb_eq, forallb_forall.
  intros [Hf Hg]. split; [done|]. intros i Hi. apply color_eqb_eq, Hg.
  apply list_elem_of_In, elem_of_seqZ. lia.
Qed.

(** The rational model and binary64 arithmetic give the same scanline
    colours and the same font size at the size the script renders, 1024,
    and at every size up to 64. *)
Lemma binary64_agrees (size : Z) :
  size = 1024 \/ 1 <= size <= 64 ->
  Binary64.font_size size = font_size size /\
  forall i, 0 <= i < size ->
    Binary64.gradient_color size i = gradient_color size i.
Proof.
  intros Hsize. apply binary64_agrees_at_sound.
  assert (Hall : forallb binary64_agrees_at (1024 :: seqZ 1 64) = true)
    by (vm_compute; reflexivity).
  rewrite forallb_forall in Hall. apply Hall.
  apply list_elem_of_In. destruct Hsize as [->|Hsize].
  - apply list_elem_of_here.
  - apply list_elem_of_further, elem_of_seqZ. lia.
Qed.


(** ** The dot ring *)

(** The angle of dot [i], in degrees: 15 i - 90. *)
Lemma dot_angle (i : Z) :
  (IZR i / IZR 24 * 2 * PI - PI / 2 = (IZR i * 15 - 90) * (PI / 180))%R.
Proof. field. Qed.

Lemma dot_center_polar (size i : Z) :
  dot_center size i
  = ((IZR (size / 2)
      + IZR (size / 2 - size / 10 - size / 15)
        * cos ((IZR i * 15 - 90) * (PI / 180)))%R,
     (IZR (size / 2)
      + IZR (size / 2 - size / 10 - size / 15)
        * sin ((IZR i * 15 - 90) * (PI / 180)))%R).
Proof.
  unfold dot_center. cbn zeta. rewrite dot_angle. f_equal; apply Rplus_eq_compat_l, Rmult_comm.
Qed.






(** ** The glyph and its font *)







(** ** What the image depends on *)

(** The pixel (x, y) of the icon, from the calls alone. *)
Lemma icon_pixel (P : Pillow) (H : Host) (size x y : Z) :
  0 <= x < size -> 0 <= y < size ->
  exists font img,
    load_font H size = Ok font /\
    create_claudius_icon P H size = Ok img /\
    getpixel img (x, y)
    = Some (foldl (fun px c => call_pixel P c x y px) (mkRGBA 0 0 0 0)
              (gradient_calls size ++ ring_calls size ++
               glyph_calls P size font ++ dot_calls size)).
Proof.
  intros Hx Hy.
  destruct (create_claudius_icon_ok P H size) as (font & Hfont & Hrun); [lia|].
  eexists font, _. split; [exact Hfont|]. split; [exact Hrun|].
  rewrite getpixel_draw_all, getpixel_new by lia. done.
Qed.





(** ** Further properties of the Exporter *)

Section OutcomeFacts.
Variable P : Pillow.
Variable spawn : list string -> filesystem -> option (Z * filesystem).

Lemma stage_events_unfold (src : Image) (p : string) (size : Z) :
  stage_events P src p size
  = EvSave (join p ("icon_" +:+ str size +:+ "x" +:+ str size +:+ ".png"))
           (resize P src (size, size))
    :: (if size <=? 512
        then [EvSave (join p ("icon_" +:+ str size +:+ "x" +:+ str size
                              +:+ "@2x.png"))
                     (resize P src (size * 2, size * 2))]
        else []).
Proof. reflexivity. Qed.

(** What a staging that returned has done to the world. *)
Lemma staging_loop_inv (src : Image) (p : string) (l : list Z) (w w1 : world) :
  for_ l (stage_size P src p) w = (Ok tt, w1) ->
  dirs (w_fs w1) = dirs (w_fs w) /\
  files (w_fs w1) = apply_saves (l ≫= stage_events P src p) (files (w_fs w)) /\
  w_trace w1 = w_trace w ++ (l ≫= stage_events P src p).
Proof.
  revert w. induction l as [|size l IH]; intros w Hrun.
  - unfold for_, mret, M_ret in Hrun. simplify_eq. by rewrite app_nil_r.
  - cbn [for_] in Hrun. unfold mbind at 1 in Hrun. unfold M_bind at 1 in Hrun.
    unfold stage_size in Hrun. unfold mbind at 1 in Hrun. unfold M_bind at 1 in Hrun.
    rewrite save_run in Hrun. destruct (bool_decide _); [done|].
    rewrite bind_cons, stage_events_unfold.
    destruct (size <=? 512).
    + rewrite save_run in Hrun. cbn [w_fs dirs] in Hrun.
      destruct (bool_decide _); [done|].
      apply IH in Hrun as (Hd & Hf & Ht). cbn [w_fs dirs files w_trace] in *.
      split; [done|]. split; [done|]. by rewrite Ht, <- !app_assoc.
    + apply IH in Hrun as (Hd & Hf & Ht). cbn [w_fs dirs files w_trace] in *.
      split; [done|]. split; [done|]. by rewrite Ht, <- !app_assoc.
Qed.

Lemma stage_iconset_inv (src : Image) (out : string) (w w1 : world) :
  let p := iconset_path_of out in
  stage_iconset P src out w = (Ok tt, w1) ->
  p ≠ ""%string /\
  files (w_fs w) !! p = None /\
  dirs (w_fs w1) = {[p]} ∪ dirs (w_fs w) /\
  files (w_fs w1)
  = apply_saves (sizes ≫= stage_events P src p) (files (w_fs w)) /\
  w_trace w1 = w_trace w ++ EvMakedirs p :: (sizes ≫= stage_events P src p).
Proof.
  intros p. unfold stage_iconset. fold p.
  unfold mbind at 1. unfold M_bind at 1. rewrite makedirs_run.
  destruct (String.eqb_spec p ""); [done|].
  destruct (bool_decide _) eqn:Hfile; [done|].
  apply bool_decide_eq_false_1 in Hfile.
  intros (Hd & Hf & Ht)%staging_loop_inv. cbn [w_fs dirs files w_trace] in *.
  split; [done|]. split; [by apply eq_None_not_Some|].
  split; [done|]. split; [done|]. by rewrite Ht, <- app_assoc.
Qed.

(** The exceptions of the staging. *)
Lemma staging_loop_errors (src : Image) (p : string) (l : list Z) (w w1 : world)
    (e : exn) :
  for_ l (stage_size P src p) w = (Raise e, w1) -> e = IsADirectoryError.
Proof.
  revert w. induction l as [|size l IH]; intros w Hrun; [done|].
  cbn [for_] in Hrun. unfold mbind at 1 in Hrun. unfold M_bind at 1 in Hrun.
  unfold stage_size in Hrun. unfold mbind at 1 in Hrun. unfold M_bind at 1 in Hrun.
  rewrite save_run in Hrun. destruct (bool_decide _); [by simplify_eq|].
  destruct (size <=? 512).
  - rewrite save_run in Hrun. destruct (bool_decide _); [by simplify_eq|].
    by apply IH in Hrun.
  - by apply IH in Hrun.
Qed.

Lemma stage_iconset_errors (src : Image) (out : string) (w w1 : world) (e : exn) :
  stage_iconset P src out w = (Raise e, w1) ->
  e = FileNotFoundError \/ e = FileExistsError \/ e = IsADirectoryError.
Proof.
  unfold stage_iconset. unfold mbind at 1. unfold M_bind at 1.
  rewrite makedirs_run. destruct (String.eqb _ ""); [intros; simplify_eq; auto|].
  destruct (bool_decide _); [intros; simplify_eq; auto|].
  intros ->%staging_loop_errors. auto.
Qed.

(** Every run of [create_icns], by its result. *)
Lemma create_icns_outcomes (src : Image) (out : string) (w : world) :
  let p := iconset_path_of out in
  let argv := iconutil_argv p out in
  let E := EvMakedirs p :: (sizes ≫= stage_events P src p) in
  let r := fst (create_icns P spawn src out w) in
  let w' := snd (create_icns P spawn src out w) in
  exists evs,
    w_trace w' = w_trace w ++ evs /\
    ((r = Ok tt /\ evs = E ++ [EvRun argv; EvRmtree p]) \/
     (exists e, r = Raise e /\ create_icns_error e /\
        (evs `prefix_of` E \/ evs = E ++ [EvRun argv]))).
Proof.
  intros p argv E r w'. subst r w'. rewrite create_icns_run. cbn zeta. fold p argv.
  destruct (performs_stage_iconset P src out w) as (evs & Ht & Hr).
  fold p in Hr. fold E in Hr.
  destruct (stage_iconset P src out w) as [[[]|e] w1] eqn:Hst; cbn [fst snd] in *.
  2:{ exists evs. split; [done|]. right. exists e. split; [done|].
      apply stage_iconset_errors in Hst. unfold create_icns_error. tauto. }
  subst evs. destruct (spawn _ _) as [[code f2]|].
  2:{ exists E. split; [done|]. right. exists FileNotFoundError.
      unfold create_icns_error. auto. }
  destruct (Z.eqb_spec code 0) as [->|Hcode].
  - rewrite rmtree_run. cbn [w_fs w_trace].
    destruct (bool_decide _); [|destruct (bool_decide _)]; cbn [fst snd w_trace].
    + exists (E ++ [EvRun argv; EvRmtree p]).
      rewrite Ht, <- !app_assoc. auto.
    + exists (E ++ [EvRun argv]). rewrite Ht, <- !app_assoc. split; [done|].
      right. exists NotADirectoryError. unfold create_icns_error. auto 10.
    + exists (E ++ [EvRun argv]). rewrite Ht, <- !app_assoc. split; [done|].
      right. exists FileNotFoundError. unfold create_icns_error. auto 10.
  - exists (E ++ [EvRun argv]). cbn [fst snd w_trace].
    rewrite Ht, <- !app_assoc. split; [done|].
    right. exists (CalledProcessError code). unfold create_icns_error.
    split; [done|]. split; [|auto]. do 4 right. by exists code.
Qed.

End OutcomeFacts.

Lemma app_not_prefix_of {A : Type} (E k : list A) :
  k ≠ [] -> ~ (E ++ k) `prefix_of` E.
Proof.
  intros Hk [t Ht]. rewrite <- app_assoc in Ht.
  rewrite <- (app_nil_r E) in Ht at 1. apply app_inv_head in Ht.
  symmetry in Ht. apply app_eq_nil in Ht as [-> _]. done.
Qed.

(** X1. [create_icns] returns normally exactly when it has created the
    staging directory, saved the thirteen images, run the packaging
    command once and removed the directory, in this order.  It removes
    the directory in no other run, and whenever the packaging command is
    run, the directory and the thirteen saves come first and the command
    is run once. *)
Theorem create_icns_returns_iff_complete (P : Pillow)
    (spawn : list string -> filesystem -> option (Z * filesystem))
    (src : Image) (out : string) (w : world) :
  let p := iconset_path_of out in
  let argv := iconutil_argv p out in
  let E := EvMakedirs p :: (sizes ≫= stage_events P src p) in
  let r := fst (create_icns P spawn src out w) in
  let w' := snd (create_icns P spawn src out w) in
  exists evs,
    w_trace w' = w_trace w ++ evs /\
    (r = Ok tt <-> evs = E ++ [EvRun argv; EvRmtree p]) /\
    (forall path, EvRmtree path ∈ evs -> r = Ok tt) /\
    (forall a, EvRun a ∈ evs ->
       a = argv /\ exists post, evs = E ++ EvRun argv :: post /\
                                Forall (fun ev => is_run ev = false) post).
Proof.
  intros p argv E r w'.
  destruct (create_icns_outcomes P spawn src out w) as (evs & Ht & Hcases).
  fold p argv E r w' in Ht, Hcases. exists evs. split; [exact Ht|].
  assert (HE : Forall (fun ev => is_run ev = false) E).
  { constructor; [done|]. apply no_run_in_stage_events. }
  assert (HEr : forall path, EvRmtree path ∉ E).
  { intros path [|Hin]%elem_of_cons; [done|].
    apply list_elem_of_bind in Hin as (N & Hin & _). unfold stage_events in Hin.
    apply elem_of_cons in Hin as [|Hin]; [done|].
    destruct (N <=? 512); [|by apply elem_of_nil in Hin].
    by apply list_elem_of_singleton in Hin. }
  destruct Hcases as [[Hr ->]|(e & Hr & _ & [Hpre| ->])].
  - split; [done|]. split; [done|]. intros a Ha.
    apply elem_of_app in Ha as [Ha|Ha].
    { apply (proj1 (Forall_forall _ _) HE) in Ha. done. }
    apply elem_of_cons in Ha as [Ha|Ha]; [|by apply list_elem_of_singleton in Ha].
    simplify_eq. split; [done|]. exists [EvRmtree p]. by repeat constructor.
  - split; [|split].
    + rewrite Hr. split; [done|]. intros ->. by apply app_not_prefix_of in Hpre.
    + intros path Hin. destruct Hpre as [k ->].
      destruct (HEr path). apply elem_of_app. by left.
    + intros a Ha. destruct Hpre as [k Hk]. rewrite Hk in HE.
      apply Forall_app in HE as [HE _].
      apply (proj1 (Forall_forall _ _) HE) in Ha. done.
  - split; [|split].
    + rewrite Hr. split; [done|]. intros Heq. by apply app_inv_head in Heq.
    + intros path [Hin|Hin]%elem_of_app; [by destruct (HEr path)|].
      by apply list_elem_of_singleton in Hin.
    + intros a [Ha|Ha]%elem_of_app.
      { apply (proj1 (Forall_forall _ _) HE) in Ha. done. }
      apply list_elem_of_singleton in Ha. simplify_eq. split; [done|].
      exists []. by split.
Qed.




(** ** The files of the iconset *)

Lemma apply_saves_cons (ev : event) (evs : list event) (m : gmap string Image) :
  apply_saves (ev :: evs) m
  = apply_saves evs (match ev with
                     | EvSave path im => <[path := im]> m
                     | _ => m
                     end).
Proof. reflexivity. Qed.

Lemma apply_saves_frame (evs : list event) (m : gmap string Image) (q : string) :
  q ∉ save_keys evs -> apply_saves evs m !! q = m !! q.
Proof.
  revert m. induction evs as [|ev evs IH]; intros m Hq; [done|].
  rewrite apply_saves_cons. destruct ev as [?|path im|?|?]; cbn in Hq;
    try (by apply IH).
  apply not_elem_of_cons in Hq as [Hne Hq].
  rewrite IH by done. by rewrite lookup_insert_ne.
Qed.

Lemma apply_saves_lookup (evs : list event) (m : gmap string Image)
    (k : string) (v : Image) :
  NoDup (save_keys evs) -> EvSave k v ∈ evs ->
  apply_saves evs m !! k = Some v.
Proof.
  revert m. induction evs as [|ev evs IH]; intros m Hnd Hin.
  { by apply elem_of_nil in Hin. }
  rewrite apply_saves_cons. apply elem_of_cons in Hin as [<-|Hin].
  - cbn in Hnd. apply NoDup_cons in Hnd as [Hk _].
    rewrite apply_saves_frame by done. apply lookup_insert_eq.
  - destruct ev as [?|path im|?|?]; cbn in Hnd; try (by apply IH).
    apply NoDup_cons in Hnd as [_ Hnd]. by apply IH.
Qed.


Lemma staged_keys (P : Pillow) (src : Image) (p : string) :
  save_keys (sizes ≫= stage_events P src p)
  = join p <$> [ "icon_16x16.png"; "icon_16x16@2x.png"; "icon_32x32.png";
                  "icon_32x32@2x.png"; "icon_64x64.png"; "icon_64x64@2x.png";
                  "icon_128x128.png"; "icon_128x128@2x.png"; "icon_256x256.png";
                  "icon_256x256@2x.png"; "icon_512x512.png";
                  "icon_512x512@2x.png"; "icon_1024x1024.png" ]%string.
Proof. reflexivity. Qed.

Lemma staged_keys_NoDup (P : Pillow) (src : Image) (p : string) :
  NoDup (save_keys (sizes ≫= stage_events P src p)).
Proof.
  rewrite staged_keys. apply NoDup_join; [by repeat constructor|].
  apply (bool_decide_unpack _). by vm_compute.
Qed.

Lemma staged_keys_under (P : Pillow) (src : Image) (p q : string) :
  q ∈ save_keys (sizes ≫= stage_events P src p) -> under p q = true.
Proof.
  rewrite staged_keys. intros (name & -> & Hin)%list_elem_of_fmap.
  apply under_join.
  repeat (apply elem_of_cons in Hin as [->|Hin]; [done|]).
  by apply elem_of_nil in Hin.
Qed.



(** X4. [create_icns] stops at once, leaving the world as it found it and
    the packaging tool unused, when the staging path is empty (an empty
    destination: FileNotFoundError) and when a regular file already sits
    at the staging path (FileExistsError). *)
Theorem create_icns_refuses_bad_staging_path (P : Pillow)
    (spawn : list string -> filesystem -> option (Z * filesystem))
    (src : Image) (w : world) :
  create_icns P spawn src "" w = (Raise FileNotFoundError, w) /\
  (forall out, iconset_path_of out = ""%string ->
     create_icns P spawn src out w = (Raise FileNotFoundError, w)) /\
  (forall out im, iconset_path_of out ≠ ""%string ->
     files (w_fs w) !! iconset_path_of out = Some im ->
     create_icns P spawn src out w = (Raise FileExistsError, w)).
Proof.
  assert (Hempty : forall out, iconset_path_of out = ""%string ->
            create_icns P spawn src out w = (Raise FileNotFoundError, w)).
  { intros out Hp. rewrite create_icns_run. cbn zeta. unfold stage_iconset.
    unfold mbind at 1. unfold M_bind at 1. rewrite makedirs_run, Hp. done. }
  split; [by apply Hempty|]. split; [exact Hempty|].
  intros out im Hp Hfile. rewrite create_icns_run. cbn zeta.
  unfold stage_iconset. unfold mbind at 1. unfold M_bind at 1.
  rewrite makedirs_run. destruct (String.eqb_spec (iconset_path_of out) ""); [done|].
  rewrite bool_decide_eq_true_2 by (by rewrite Hfile). done.
Qed.

Lemma create_icns_refuses_bad_staging_path_witness :
  create_icns Reference.pillow Reference.tool_ok (Reference.test_card 64)
    "AppIcon.icns"
    (Reference2.world_with_file "AppIcon.iconset" (Reference.test_card 2))
  = (Raise FileExistsError,
     Reference2.world_with_file "AppIcon.iconset" (Reference.test_card 2)).
Proof.
  apply (proj2 (proj2 (create_icns_refuses_bad_staging_path Reference.pillow
                         Reference.tool_ok (Reference.test_card 64) _))
           "AppIcon.icns" (Reference.test_card 2)).
  - discriminate.
  - apply lookup_singleton_eq.
Defined.

(** X5. When the packaging tool cannot be started, [create_icns] raises
    FileNotFoundError after the staging and cleans nothing up: the
    staging directory and the staged images stay behind, and no run or
    removal is recorded. *)
Theorem create_icns_tool_missing (P : Pillow)
    (spawn : list string -> filesystem -> option (Z * filesystem))
    (src : Image) (out : string) (w w1 : world) :
  let p := iconset_path_of out in
  stage_iconset P src out w = (Ok tt, w1) ->
  spawn (iconutil_argv p out) (w_fs w1) = None ->
  create_icns P spawn src out w = (Raise FileNotFoundError, w1) /\
  p ∈ dirs (w_fs w1) /\
  (forall N, N ∈ sizes ->
     files (w_fs w1) !! join p ("icon_" +:+ str N +:+ "x" +:+ str N +:+ ".png")
     = Some (resize P src (N, N))) /\
  w_trace w1 = w_trace w ++ EvMakedirs p :: (sizes ≫= stage_events P src p).
Proof.
  intros p Hst Hsp. split; [|split; [|split]].
  - rewrite create_icns_run, Hst. cbn zeta. fold p. by rewrite Hsp.
  - by apply (stage_iconset_dir P src out w).
  - intros N HN.
    destruct (stage_iconset_inv P src out w w1 Hst) as (_ & _ & _ & Hf & _).
    fold p in Hf. rewrite Hf.
    apply apply_saves_lookup; [apply staged_keys_NoDup|].
    apply list_elem_of_bind. exists N. split; [|done].
    rewrite stage_events_unfold. apply list_elem_of_here.
  - by destruct (stage_iconset_inv P src out w w1 Hst) as (_ & _ & _ & _ & Ht).
Qed.

Lemma create_icns_tool_missing_witness :
  fst (create_icns Reference.pillow Reference2.tool_missing
         (Reference.test_card 64) "AppIcon.icns" Reference.empty_world)
  = Raise FileNotFoundError.
Proof.
  destruct (stage_iconset_ok Reference.pillow (Reference.test_card 64)
              "AppIcon.icns" Reference.empty_world)
    as (w1 & Hst & _ & _).
  { discriminate. }
  { apply lookup_empty. }
  { intros d Hd. by apply not_elem_of_empty in Hd. }
  destruct (create_icns_tool_missing Reference.pillow Reference2.tool_missing
              (Reference.test_card 64) "AppIcon.icns" Reference.empty_world w1
              Hst eq_refl) as (Hrun & _).
  by rewrite Hrun.
Defined.


(** ** The staging path against the destination *)

Lemma find_None_inv (old : string) (c : ascii) (s : string) :
  find old (String c s) = None ->
  starts_with old (String c s) = false /\ find old s = None.
Proof.
  rewrite find_cons. destruct (starts_with old (String c s)); [done|].
  by destruct (find old s).
Qed.

Lemma find_iconset_tail (t : string) :
  find ".icns" t = None -> find ".icns" (".iconset" +:+ t) = None.
Proof.
  intros Ht.
  change (".iconset" +:+ t)
    with (String "." (String "i" (String "c" (String "o" (String "n"
            (String "s" (String "e" (String "t" t)))))))).
  do 8 (rewrite find_cons; cbn [starts_with Ascii.eqb Bool.eqb]).
  by rewrite Ht.
Qed.

(** No occurrence of ".icns" can start before a ".iconset" and run into
    it. *)
Lemma iconset_no_straddle (a t : string) :
  a ≠ ""%string ->
  starts_with ".icns" (a +:+ ".iconset" +:+ t) = starts_with ".icns" a.
Proof.
  intros Ha. destruct a as [|c1 a]; [done|]. clear Ha.
  rewrite append_cons. cbn [starts_with].
  destruct (Ascii.eqb _ c1); [|done].
  do 4 (destruct a as [|? a];
        [reflexivity
        |rewrite append_cons; cbn [starts_with];
         destruct (Ascii.eqb _ _); [|reflexivity]]).
  reflexivity.
Qed.

Lemma find_None_app_iconset (a t : string) :
  find ".icns" a = None -> find ".icns" t = None ->
  find ".icns" (a +:+ ".iconset" +:+ t) = None.
Proof.
  intros Ha Ht. induction a as [|c a IH].
  - rewrite append_nil_l. by apply find_iconset_tail.
  - apply find_None_inv in Ha as [Hs Ha].
    pose proof (iconset_no_straddle (String c a) t ltac:(done)) as Hn.
    rewrite Hs, (append_cons c) in Hn.
    rewrite (append_cons c), find_cons, Hn. by rewrite IH.
Qed.

Lemma iconset_path_facts (s : string) :
  find ".icns" (iconset_path_of s) = None /\
  (String.length s <= String.length (iconset_path_of s))%nat /\
  (find ".icns" s ≠ None ->
   (String.length s < String.length (iconset_path_of s))%nat).
Proof.
  remember (String.length s) as n eqn:Hn. revert s Hn.
  induction (lt_wf n) as [n _ IH]. intros s ->.
  destruct (find ".icns" s) as [i|] eqn:Hf.
  - destruct (find_Some_split _ _ _ Hf) as (a & b & -> & _).
    unfold iconset_path_of in *. rewrite replace_icns_app.
    assert (Hla : (String.length a < String.length (a +:+ ".icns" +:+ b))%nat).
    { rewrite !append_length. cbn. lia. }
    assert (Hlb : (String.length b < String.length (a +:+ ".icns" +:+ b))%nat).
    { rewrite !append_length. cbn. lia. }
    destruct (IH _ Hla a eq_refl) as (Ha1 & Ha2 & _).
    destruct (IH _ Hlb b eq_refl) as (Hb1 & Hb2 & _).
    split; [by apply find_None_app_iconset|].
    rewrite !append_length. cbn [String.length]. split; [lia|]. intros _. lia.
  - unfold iconset_path_of. change (replace s ".icns" ".iconset")
      with (replace_from O ".icns" ".iconset" s).
    rewrite find_None_replace by done. split; [done|]. split; [lia|done].
Qed.

(** X6. The staging path never contains ".icns" and is never shorter
    than the destination path; it is the destination path itself exactly
    when ".icns" does not occur in the destination, so a destination that
    contains ".icns" always gets a staging directory of its own, and
    deriving the staging path a second time changes nothing. *)
Theorem staging_path_against_destination (out : string) :
  ~ has_substring ".icns" (iconset_path_of out) /\
  (String.length out <= String.length (iconset_path_of out))%nat /\
  (iconset_path_of out = out <-> ~ has_substring ".icns" out) /\
  iconset_path_of (iconset_path_of out) = iconset_path_of out.
Proof.
  destruct (iconset_path_facts out) as (Hfree & Hlen & Hgrow).
  split; [by apply find_None_no_substring|]. split; [exact Hlen|]. split.
  - split.
    + intros Heq. apply find_None_no_substring.
      destruct (find ".icns" out) eqn:Hf; [|done].
      assert (String.length out < String.length (iconset_path_of out))%nat
        by (by apply Hgrow).
      rewrite Heq in *. lia.
    + intros Hno. by apply replace_absent.
  - apply replace_absent; [done|]. by apply find_None_no_substring.
Qed.

Section RemovalFacts.
Variable P : Pillow.
Variable spawn : list string -> filesystem -> option (Z * filesystem).

(** A run that returned: the tool exited with status 0, left the staging
    directory in place, and the final file system is what the tool left
    minus that directory and what it holds. *)
Lemma create_icns_ok_inv (src : Image) (out : string) (w w' : world) :
  let p := iconset_path_of out in
  let argv := iconutil_argv p out in
  create_icns P spawn src out w = (Ok tt, w') ->
  exists w1 f2,
    stage_iconset P src out w = (Ok tt, w1) /\
    spawn argv (w_fs w1) = Some (0, f2) /\
    p ∈ dirs f2 /\
    w' = mkWorld
           (mkFS (filter (fun d => d ≠ p ∧ under p d = false) (dirs f2))
                 (filter (fun kv => under p (fst kv) = false) (files f2)))
           (w_trace w1 ++ [EvRun argv; EvRmtree p]).
Proof.
  intros p argv. rewrite create_icns_run. cbn zeta. fold p argv.
  destruct (stage_iconset P src out w) as [[[]|e] w1]; [|done].
  destruct (spawn argv (w_fs w1)) as [[code f2]|] eqn:Hsp; [|done].
  destruct (Z.eqb_spec code 0) as [->|]; [|done].
  rewrite rmtree_run. cbn [w_fs w_trace].
  destruct (bool_decide (p ∈ dirs f2)) eqn:Hdir.
  - apply bool_decide_eq_true_1 in Hdir. intros [= <-].
    exists w1, f2. repeat split; try done. by rewrite <- app_assoc.
  - by destruct (bool_decide (is_Some _)).
Qed.

End RemovalFacts.

(** X7. For a destination path in which ".icns" does not occur, a run of
    [create_icns] that returns leaves no directory at the destination
    path and nothing inside it: the path the packaging tool was told to
    write to is the staging directory, and it is removed with all its
    contents. *)
Theorem destination_without_icns_is_removed (P : Pillow)
    (spawn : list string -> filesystem -> option (Z * filesystem))
    (src : Image) (out : string) (w w' : world) :
  ~ has_substring ".icns" out ->
  create_icns P spawn src out w = (Ok tt, w') ->
  (EvRun ["iconutil"; "-c"; "icns"; out; "-o"; out]%string ∈ w_trace w') /\
  (EvRmtree out ∈ w_trace w') /\
  (out ∉ dirs (w_fs w')) /\
  (forall q, under out q = true ->
     (q ∉ dirs (w_fs w')) /\ files (w_fs w') !! q = None).
Proof.
  intros Hno Hrun.
  assert (Hp : iconset_path_of out = out) by (by apply replace_absent).
  destruct (create_icns_ok_inv P spawn src out w w' Hrun)
    as (w1 & f2 & _ & _ & _ & ->).
  rewrite Hp. cbn [w_fs w_trace dirs files]. split; [|split; [|split]].
  - apply elem_of_app. right. apply list_elem_of_here.
  - apply elem_of_app. right. apply list_elem_of_further, list_elem_of_here.
  - rewrite elem_of_filter. intros [[Hne _] _]. by apply Hne.
  - intros q Hq. split.
    + rewrite elem_of_filter. intros [[_ Hu] _]. congruence.
    + apply map_lookup_filter_None. right. intros im _ Hu.
      cbn [fst] in Hu. congruence.
Qed.

Lemma destination_without_icns_is_removed_witness :
  exists w',
    create_icns Reference.pillow Reference.tool_ok (Reference.test_card 64)
      "AppIcon" Reference.empty_world = (Ok tt, w') /\
    "AppIcon"%string ∉ dirs (w_fs w').
Proof.
  destruct (create_icns_on_fresh Reference.pillow Reference.tool_ok
              (Reference.test_card 64) "AppIcon" Reference.empty_world 0)
    as (w1 & w' & _ & Hrun & _).
  { discriminate. }
  { apply lookup_empty. }
  { intros d Hd. by apply not_elem_of_empty in Hd. }
  { reflexivity. }
  exists w'. split; [exact Hrun|].
  destruct (destination_without_icns_is_removed Reference.pillow
              Reference.tool_ok (Reference.test_card 64) "AppIcon"
              Reference.empty_world w') as (_ & _ & Hgone & _).
  - apply find_None_no_substring. reflexivity.
  - exact Hrun.
  - exact Hgone.
Defined.


(** ** Further properties of the Renderer *)



(** X9. For every size that is not negative the two ring calls have
    well-formed boxes inside the canvas: the outer box leaves the margin
    size/10 on every side, the inner box starts at least the outer
    stroke width further in, neither box is turned inside out, and the
    inner stroke ends before the centre.  The outer ring has a stroke
    from size 30 on, the inner ring from size 40 on. *)
Theorem ring_geometry (size : Z) :
  0 <= size ->
  exists m1 w1 m2 w2,
    ring_calls size
    = [ DrawEllipse (Int m1, Int m1, Int (size - m1), Int (size - m1))
          None (Some (RGB 212 175 55)) w1;
        DrawEllipse (Int m2, Int m2, Int (size - m2), Int (size - m2))
          None (Some (RGB 180 145 35)) w2 ] /\
    m1 = size / 10 /\ w1 = size / 30 /\ w2 = size / 40 /\
    0 <= m1 <= size - m1 /\
    m1 + w1 <= m2 <= size - m2 /\
    2 * (m2 + w2) <= size /\
    (0 < w1 <-> 30 <= size) /\
    (0 < w2 <-> 40 <= size).
Proof.
  intros Hsize. eexists _, _, _, _. split; [reflexivity|].
  split; [done|]. split; [done|]. split; [done|].
  Z.div_mod_to_equations. lia.
Qed.

Lemma ring_geometry_witness :
  exists m1 w1 m2 w2,
    ring_calls 1024
    = [ DrawEllipse (Int m1, Int m1, Int (1024 - m1), Int (1024 - m1))
          None (Some (RGB 212 175 55)) w1;
        DrawEllipse (Int m2, Int m2, Int (1024 - m2), Int (1024 - m2))
          None (Some (RGB 180 145 35)) w2 ] /\
    m1 + w1 <= m2.
Proof.
  destruct (ring_geometry 1024) as (m1 & w1 & m2 & w2 & Hcalls & _ & _ & _ & _ & Hnest & _);
    [lia|].
  exists m1, w1, m2, w2. split; [exact Hcalls|apply Hnest].
Defined.

(** X10. On an icon smaller than 30 pixels the two ring calls change no
    pixel, whatever the rasteriser: their stroke width is 0, and an
    outline of width 0 is not drawn.  Below 40 pixels the inner ring
    changes no pixel. *)
Theorem small_icons_have_no_rings (P : Pillow) (size x y : Z) (px : RGBA) :
  0 <= size < 40 ->
  (forall inner, ring_calls size !! 1%nat = Some inner ->
     call_pixel P inner x y px = px) /\
  (size < 30 ->
   foldl (fun px c => call_pixel P c x y px) px (ring_calls size) = px).
Proof.
  intros Hsize.
  assert (Hw2 : size / 40 = 0) by (apply Z.div_small; lia).
  split.
  - intros inner [= <-]. cbn [call_pixel]. rewrite Hw2. cbn.
    by rewrite ?andb_false_r.
  - intros Hsmall.
    assert (Hw1 : size / 30 = 0) by (apply Z.div_small; lia).
    unfold ring_calls. cbn zeta. cbn [foldl call_pixel]. rewrite Hw1, Hw2. cbn.
    by rewrite ?andb_false_r.
Qed.

Lemma small_icons_have_no_rings_witness :
  foldl (fun px c => call_pixel Reference.pillow c 8 8 px) (mkRGBA 1 2 3 4)
        (ring_calls 16)
  = mkRGBA 1 2 3 4.
Proof.
  apply (small_icons_have_no_rings Reference.pillow 16 8 8 (mkRGBA 1 2 3 4));
    lia.
Defined.

(** X11. Down the image the gradient never gets darker: for rows
    i <= j each channel of row i is at most that of row j; and every
    channel is a valid 8-bit value, red within 88..127, green within
    28..47, blue within 108..137, alpha 255. *)
Theorem gradient_is_monotone (size i j : Z) :
  0 < size -> 0 <= i <= j -> j < size ->
  exists ri gi bi rj gj bj,
    gradient_color size i = RGBa ri gi bi 255 /\
    gradient_color size j = RGBa rj gj bj 255 /\
    88 <= ri <= rj /\ rj <= 127 /\
    28 <= gi <= gj /\ gj <= 47 /\
    108 <= bi <= bj /\ bj <= 137.
Proof.
  intros Hsize Hij Hj. rewrite !gradient_color_closed by lia.
  change (128 - 88) with 40. change (48 - 28) with 20.
  change (138 - 108) with 30.
  eexists _, _, _, _, _, _. split; [reflexivity|]. split; [reflexivity|].
  assert (Hmono : forall k, 0 < k ->
    0 <= k * i / size <= k * j / size /\ k * j / size <= k - 1).
  { intros k Hk. split; [split|].
    - apply Z.div_pos; lia.
    - apply Z.div_le_mono; [lia|nia].
    - apply Z.lt_succ_r. apply Z.div_lt_upper_bound; [lia|nia]. }
  destruct (Hmono 40 ltac:(lia)) as [[? ?] ?].
  destruct (Hmono 20 ltac:(lia)) as [[? ?] ?].
  destruct (Hmono 30 ltac:(lia)) as [[? ?] ?].
  repeat split; lia.
Qed.

Lemma gradient_is_monotone_witness :
  exists ri gi bi rj gj bj,
    gradient_color 1024 100 = RGBa ri gi bi 255 /\
    gradient_color 1024 900 = RGBa rj gj bj 255 /\
    ri <= rj.
Proof.
  destruct (gradient_is_monotone 1024 100 900)
    as (ri & gi & bi & rj & gj & bj & Hi & Hj & Hr & _); [lia..|].
  exists ri, gi, bi, rj, gj, bj. split; [exact Hi|]. split; [exact Hj|apply Hr].
Defined.


(** ** The dots on the canvas *)

Lemma dot_distances (size : Z) :
  0 <= size ->
  0 <= size / 2 - size / 10 - size / 15 /\
  0 <= size / 80 /\
  size / 2 - size / 10 - size / 15 + size / 80 <= size / 2 /\
  2 * (size / 2) <= size.
Proof. intros Hsize. Z.div_mod_to_equations. lia. Qed.

(** X12. For every size that is not negative and every dot, the box of
    the dot lies within the canvas: 0 <= x - r, x + r <= size, and the
    same for y, so no dot is clipped by the image border. *)
Theorem dots_inside_canvas (size i : Z) :
  0 <= size ->
  let x := fst (dot_center size i) in
  let y := snd (dot_center size i) in
  let r := IZR (size / 80) in
  (0 <= x - r /\ x + r <= IZR size /\ 0 <= y - r /\ y + r <= IZR size)%R.
Proof.
  intros Hsize x y r. subst x y r. rewrite dot_center_polar. cbn [fst snd].
  destruct (dot_distances size Hsize) as (HD & Hr & Hfit & Hc).
  set (t := ((IZR i * 15 - 90) * (PI / 180))%R).
  pose proof (COS_bound t) as [Hc1 Hc2]. pose proof (SIN_bound t) as [Hs1 Hs2].
  apply IZR_le in HD, Hr, Hfit, Hc.
  rewrite ?plus_IZR, ?minus_IZR, ?mult_IZR in *.
  set (c := IZR (size / 2)) in *. set (a := IZR (size / 10)) in *.
  set (b := IZR (size / 15)) in *. set (r := IZR (size / 80)) in *.
  assert (HcD : (- (c - a - b) <= (c - a - b) * cos t <= c - a - b)%R)
    by (split; nra).
  assert (HsD : (- (c - a - b) <= (c - a - b) * sin t <= c - a - b)%R)
    by (split; nra).
  repeat split; lra.
Qed.

Lemma dots_inside_canvas_witness :
  (0 <= fst (dot_center 1024 5) - IZR (1024 / 80))%R.
Proof.
  apply (dots_inside_canvas 1024 5). lia.
Defined.


(** ** Layers *)

Lemma dots_win (P : Pillow) (size x y : Z) (l : list Z) (px : RGBA) :
  let dot := fun i =>
    let '(cx, cy) := dot_center size i in
    DrawEllipse (Float (cx - IZR (size / 80)), Float (cy - IZR (size / 80)),
                 Float (cx + IZR (size / 80)), Float (cy + IZR (size / 80)))
      (Some dark_gold) None 1 in
  foldl (fun px c => call_pixel P c x y px) px (dot <$> l)
  = if existsb (fun i =>
         let '(cx, cy) := dot_center size i in
         ellipse_fill_covers P
           (Float (cx - IZR (size / 80)), Float (cy - IZR (size / 80)),
            Float (cx + IZR (size / 80)), Float (cy + IZR (size / 80))) x y) l
    then ink dark_gold else px.
Proof.
  intros dot. revert px. induction l as [|i l IH]; intros px; [done|].
  cbn [fmap list_fmap foldl existsb]. rewrite IH. subst dot. cbn beta.
  destruct (dot_center size i) as [cx cy]. cbn [call_pixel].
  destruct (ellipse_fill_covers P _ x y); cbn [orb]; [|done].
  by destruct (existsb _ l).
Qed.

(** X14. The dots are drawn last and opaquely: a pixel of the canvas
    that the rasteriser puts inside one of the 24 dots is (180, 145, 35,
    255) in the finished icon, whatever the gradient, the rings and the
    glyph left there. *)
Theorem dots_are_never_occluded (P : Pillow) (H : Host) (size x y i : Z) :
  0 <= x < size -> 0 <= y < size -> 0 <= i < 24 ->
  ellipse_fill_covers P
    (Float (fst (dot_center size i) - IZR (size / 80)),
     Float (snd (dot_center size i) - IZR (size / 80)),
     Float (fst (dot_center size i) + IZR (size / 80)),
     Float (snd (dot_center size i) + IZR (size / 80))) x y = true ->
  exists img,
    create_claudius_icon P H size = Ok img /\
    getpixel img (x, y) = Some (mkRGBA 180 145 35 255).
Proof.
  intros Hx Hy Hi Hcov.
  destruct (icon_pixel P H size x y Hx Hy) as (font & img & _ & Hrun & Hpx).
  exists img. split; [exact Hrun|]. rewrite Hpx. f_equal.
  rewrite !app_assoc, foldl_app. unfold dot_calls. cbn zeta.
  rewrite (dots_win P size x y (seqZ 0 24)).
  assert (Hex : existsb (fun i =>
         let '(cx, cy) := dot_center size i in
         ellipse_fill_covers P
           (Float (cx - IZR (size / 80)), Float (cy - IZR (size / 80)),
            Float (cx + IZR (size / 80)), Float (cy + IZR (size / 80))) x y)
         (seqZ 0 24) = true).
  { apply existsb_exists. exists i. split.
    - apply list_elem_of_In, elem_of_seqZ. lia.
    - by destruct (dot_center size i). }
  by rewrite Hex.
Qed.

Lemma dots_are_never_occluded_witness :
  exists img,
    create_claudius_icon Reference2.flood Reference.bare 64 = Ok img /\
    getpixel img (10, 20) = Some (mkRGBA 180 145 35 255).
Proof.
  apply (dots_are_never_occluded Reference2.flood Reference.bare 64 10 20 0);
    [lia..|reflexivity].
Defined.

Lemma calls_unchanged (P : Pillow) (x y : Z) (cs : list draw_call) (px : RGBA) :
  (forall c px', c ∈ cs -> call_pixel P c x y px' = px') ->
  foldl (fun px c => call_pixel P c x y px) px cs = px.
Proof.
  induction cs as [|c cs IH]; intros Hkeep; [done|].
  cbn [foldl]. rewrite Hkeep by apply list_elem_of_here.
  apply IH. intros c' px' Hin. apply Hkeep. by apply list_elem_of_further.
Qed.

(** X15. The layers are painted over the background in place: a pixel
    of the canvas that no ring, glyph or dot call changes has, in the
    finished icon, the gradient colour of its row. *)
Theorem background_shows_through (P : Pillow) (H : Host) (size x y : Z) :
  0 <= x < size -> 0 <= y < size ->
  (forall font c px,
     load_font H size = Ok font ->
     c ∈ ring_calls size ++ glyph_calls P size font ++ dot_calls size ->
     call_pixel P c x y px = px) ->
  exists img,
    create_claudius_icon P H size = Ok img /\
    getpixel img (x, y) = Some (ink (gradient_color size y)).
Proof.
  intros Hx Hy Hkeep.
  destruct (icon_pixel P H size x y Hx Hy) as (font & img & Hfont & Hrun & Hpx).
  exists img. split; [exact Hrun|]. rewrite Hpx. f_equal.
  rewrite foldl_app. unfold gradient_calls at 1.
  rewrite gradient_pixel by lia.
  rewrite decide_True by (apply elem_of_seqZ; lia).
  apply calls_unchanged. intros c px' Hin. by apply (Hkeep font).
Qed.

Lemma background_shows_through_witness :
  exists img,
    create_claudius_icon Reference.pillow Reference.bare 64 = Ok img /\
    getpixel img (0, 0) = Some (ink (gradient_color 64 0)).
Proof.
  apply (background_shows_through Reference.pillow Reference.bare 64 0 0);
    [lia..|].
  intros font c px Hfont Hin.
  rewrite load_font_cases in Hfont. cbn in Hfont. injection Hfont as <-.
  apply elem_of_app in Hin as [Hin|Hin].
  { repeat (apply elem_of_cons in Hin as [->|Hin]; [reflexivity|]).
    by apply elem_of_nil in Hin. }
  apply elem_of_app in Hin as [Hin|Hin].
  { repeat (apply elem_of_cons in Hin as [->|Hin]; [reflexivity|]).
    by apply elem_of_nil in Hin. }
  unfold dot_calls in Hin. apply list_elem_of_fmap in Hin as (i & -> & _).
  by destruct (dot_center 64 i).
Defined.


(** ** The paths of the script body *)

Lemma append_nonempty_r (a : string) (c : ascii) (t : string) :
  a +:+ String c t ≠ ""%string.
Proof. destruct a; [done|]. by rewrite append_cons. Qed.

Lemma has_sep_app_r (a t : string) : has_sep t = true -> has_sep (a +:+ t) = true.
Proof.
  intros Ht. induction a as [|c a IH]; [done|].
  rewrite append_cons. cbn [has_sep]. rewrite IH. apply orb_true_r.
Qed.

Lemma path_head_app (a t : string) :
  has_sep t = true -> path_head (a +:+ t) = a +:+ path_head t.
Proof.
  intros Ht. induction a as [|c a IH]; [done|].
  rewrite !append_cons. cbn [path_head]. rewrite <- append_cons.
  rewrite has_sep_app_r by done. by rewrite IH.
Qed.

Lemma rstrip_sep_app (a u : string) :
  rstrip_sep u ≠ ""%string -> rstrip_sep (a +:+ u) = a +:+ rstrip_sep u.
Proof.
  intros Hu. induction a as [|c a IH]; [done|].
  rewrite !append_cons. cbn [rstrip_sep]. rewrite IH.
  destruct (a +:+ rstrip_sep u) eqn:E; [|done].
  destruct a; [done|]. by rewrite append_cons in E.
Qed.

(** The replacement of ".icns" works on each side of a separator. *)
Lemma icns_no_straddle_sep (a m : string) :
  a ≠ ""%string ->
  starts_with ".icns" (a +:+ String "/" m) = starts_with ".icns" a.
Proof.
  intros Ha. destruct a as [|c1 a]; [done|]. clear Ha.
  rewrite append_cons. cbn [starts_with].
  destruct (Ascii.eqb _ c1); [|done].
  do 4 (destruct a as [|? a];
        [reflexivity
        |rewrite append_cons; cbn [starts_with];
         destruct (Ascii.eqb _ _); [|reflexivity]]).
  reflexivity.
Qed.

Lemma replace_icns_sep (a m : string) :
  iconset_path_of (a +:+ String "/" m)
  = iconset_path_of a +:+ iconset_path_of (String "/" m).
Proof.
  unfold iconset_path_of, replace.
  remember (String.length a) as n eqn:Hn.
  revert a Hn. induction (lt_wf n) as [n _ IH]. intros a ->.
  destruct a as [|d a]; [done|].
  destruct (starts_with ".icns" (String d a)) eqn:Hs.
  - destruct (starts_with_inv _ _ Hs) as [a2 Ha2]. rewrite Ha2.
    rewrite append_assoc, !replace_from_occurrence, append_assoc.
    f_equal. apply (IH (String.length a2)); [|done].
    rewrite Ha2, append_length. cbn. lia.
  - pose proof (icns_no_straddle_sep (String d a) m ltac:(done)) as Hn.
    rewrite Hs, (append_cons d) in Hn.
    rewrite (append_cons d), !replace_from_cons, Hn, Hs, (append_cons d).
    f_equal. apply (IH (String.length a)); [cbn; lia|done].
Qed.

Section MainFacts.
Variable P : Pillow.
Variable H : Host.
Variable spawn : list string -> filesystem -> option (Z * filesystem).
Variable userhome_of : string -> option string.

Lemma expanduser_tilde (rest : string) :
  fst (until_sep rest) = ""%string ->
  snd (until_sep rest) = rest ->
  rest ≠ ""%string ->
  expanduser userhome_of (String "~" rest) = home_prefix userhome_of +:+ rest.
Proof.
  intros Hname Hrst Hrest. unfold expanduser, home_prefix.
  destruct (until_sep rest) as [nm rst]. cbn [fst snd] in *. subst nm rst.
  destruct (userhome_of "") as [userhome|]; [|done].
  destruct rest as [|c t]; [done|].
  destruct (rstrip_sep userhome +:+ String c t) eqn:E; [|done].
  by apply append_nonempty_r in E.
Qed.

Lemma png_path_eq :
  expanduser userhome_of "~/xcode_projects/iClaudius/AppIcon.png"
  = home_prefix userhome_of +:+ "/xcode_projects/iClaudius/AppIcon.png".
Proof. by apply expanduser_tilde. Qed.

Lemma icns_path_eq :
  expanduser userhome_of
    "~/xcode_projects/iClaudius/iClaudius.app/Contents/Resources/AppIcon.icns"
  = home_prefix userhome_of
    +:+ "/xcode_projects/iClaudius/iClaudius.app/Contents/Resources/AppIcon.icns".
Proof. by apply expanduser_tilde. Qed.

Lemma resources_dir_eq :
  dirname
    (home_prefix userhome_of
     +:+ "/xcode_projects/iClaudius/iClaudius.app/Contents/Resources/AppIcon.icns")
  = home_prefix userhome_of +:+ "/xcode_projects/iClaudius/iClaudius.app/Contents/Resources".
Proof.
  unfold dirname. rewrite path_head_app by reflexivity.
  change (path_head
    "/xcode_projects/iClaudius/iClaudius.app/Contents/Resources/AppIcon.icns")
    with "/xcode_projects/iClaudius/iClaudius.app/Contents/Resources/"%string.
  rewrite rstrip_sep_app by discriminate.
  change (rstrip_sep
    "/xcode_projects/iClaudius/iClaudius.app/Contents/Resources/")
    with "/xcode_projects/iClaudius/iClaudius.app/Contents/Resources"%string.
  destruct (home_prefix userhome_of +:+ _) eqn:E; [|done].
  by apply append_nonempty_r in E.
Qed.

Lemma staging_dir_eq :
  iconset_path_of
    (home_prefix userhome_of
     +:+ "/xcode_projects/iClaudius/iClaudius.app/Contents/Resources/AppIcon.icns")
  = iconset_path_of (home_prefix userhome_of)
    +:+ "/xcode_projects/iClaudius/iClaudius.app/Contents/Resources/AppIcon.iconset".
Proof. by rewrite replace_icns_sep. Qed.

End MainFacts.


(** ** The script body *)

Lemma join_empty_length (p : string) :
  (String.length p <= String.length (join p ""))%nat.
Proof.
  unfold join. cbn [starts_with].
  destruct (String.eqb p "" || ends_with_sep p); rewrite !append_length; lia.
Qed.

Lemma not_under_shorter (p q : string) :
  (String.length q < String.length p)%nat -> under p q = false.
Proof.
  intros Hlen. unfold under. destruct (starts_with (join p "") q) eqn:Hs; [|done].
  apply starts_with_inv in Hs as [t ->]. rewrite append_length in Hlen.
  pose proof (join_empty_length p). lia.
Qed.

(** The PNG is not the staging directory and not inside it. *)
Lemma script_paths_aux (userhome_of : string -> option string) :
  let h := home_prefix userhome_of in
  let png_path := h +:+ "/xcode_projects/iClaudius/AppIcon.png" in
  let icns_path :=
    h +:+ "/xcode_projects/iClaudius/iClaudius.app/Contents/Resources/AppIcon.icns" in
  iconset_path_of icns_path ≠ png_path /\
  under (iconset_path_of icns_path) png_path = false.
Proof.
  intros h png_path icns_path. subst png_path icns_path h.
  rewrite staging_dir_eq. set (h := home_prefix userhome_of).
  destruct (iconset_path_facts h) as (_ & Hlen & _).
  assert (Hshort :
    (String.length (h +:+ "/xcode_projects/iClaudius/AppIcon.png")
     < String.length
         (iconset_path_of h +:+
          "/xcode_projects/iClaudius/iClaudius.app/Contents/Resources/AppIcon.iconset"))%nat).
  { rewrite !append_length. cbn [String.length]. lia. }
  split.
  - intros Heq. rewrite Heq in Hshort. lia.
  - by apply not_under_shorter.
Qed.

(** X16. Where the script body works, for every way the host resolves
    the home directory, [h] standing for the home directory without
    trailing separators (the tilde itself when the home directory is not
    known): the PNG goes to h/xcode_projects/iClaudius/AppIcon.png, the
    directory created for the icon is
    h/xcode_projects/iClaudius/iClaudius.app/Contents/Resources, the
    staging directory is AppIcon.iconset under that path with every
    ".icns" inside [h] itself rewritten to ".iconset", so it sits in the
    Resources directory exactly when [h] is free of ".icns"; and the PNG
    is neither the staging directory nor inside it. *)
Theorem script_paths (userhome_of : string -> option string) :
  let h := home_prefix userhome_of in
  let png_path :=
    expanduser userhome_of "~/xcode_projects/iClaudius/AppIcon.png" in
  let icns_path :=
    expanduser userhome_of
      "~/xcode_projects/iClaudius/iClaudius.app/Contents/Resources/AppIcon.icns" in
  png_path = h +:+ "/xcode_projects/iClaudius/AppIcon.png" /\
  icns_path
  = h +:+ "/xcode_projects/iClaudius/iClaudius.app/Contents/Resources/AppIcon.icns" /\
  dirname icns_path
  = h +:+ "/xcode_projects/iClaudius/iClaudius.app/Contents/Resources" /\
  iconset_path_of icns_path
  = iconset_path_of h
    +:+ "/xcode_projects/iClaudius/iClaudius.app/Contents/Resources/AppIcon.iconset" /\
  (iconset_path_of icns_path = join (dirname icns_path) "AppIcon.iconset"
   <-> ~ has_substring ".icns" h) /\
  iconset_path_of icns_path ≠ png_path /\
  under (iconset_path_of icns_path) png_path = false.
Proof.
  intros h png_path icns_path. subst png_path icns_path.
  rewrite png_path_eq, icns_path_eq, resources_dir_eq, staging_dir_eq. fold h.
  split; [done|]. split; [done|]. split; [done|]. split; [done|].
  destruct (iconset_path_facts h) as (_ & Hlen & _).
  assert (Hshort :
    (String.length (h +:+ "/xcode_projects/iClaudius/AppIcon.png")
     < String.length
         (iconset_path_of h +:+
          "/xcode_projects/iClaudius/iClaudius.app/Contents/Resources/AppIcon.iconset"))%nat).
  { rewrite !append_length. cbn [String.length]. lia. }
  split; [|split].
  - rewrite join_relative by reflexivity.
    assert (Hj : join
      (h +:+ "/xcode_projects/iClaudius/iClaudius.app/Contents/Resources") ""
      = h +:+ "/xcode_projects/iClaudius/iClaudius.app/Contents/Resources/").
    { unfold join. cbn [starts_with].
      assert (ends_with_sep
        (h +:+ "/xcode_projects/iClaudius/iClaudius.app/Contents/Resources")
        = false) as ->.
      { clear. induction h as [|c s IH]; [reflexivity|].
        rewrite append_cons. cbn [ends_with_sep]. rewrite IH.
        destruct (s +:+ _) eqn:E; [|done]. by apply append_nonempty_r in E. }
      destruct (String.eqb_spec
        (h +:+ "/xcode_projects/iClaudius/iClaudius.app/Contents/Resources") "")
        as [E|_]; [by apply append_nonempty_r in E|].
      cbn [orb]. by rewrite !append_assoc. }
    rewrite Hj, append_assoc.
    change ("/xcode_projects/iClaudius/iClaudius.app/Contents/Resources/"
            +:+ "AppIcon.iconset")
      with "/xcode_projects/iClaudius/iClaudius.app/Contents/Resources/AppIcon.iconset"%string.
    split.
    + intros Heq. apply (f_equal String.length) in Heq.
      rewrite !append_length in Heq. apply find_None_no_substring.
      destruct (find ".icns" h) eqn:Hf; [|done].
      destruct (iconset_path_facts h) as (_ & _ & Hgrow).
      assert (String.length h < String.length (iconset_path_of h))%nat
        by (apply Hgrow; by rewrite Hf). lia.
    + intros Hno. unfold iconset_path_of. by rewrite replace_absent.
  - intros Heq. rewrite Heq in Hshort. lia.
  - by apply not_under_shorter.
Qed.

Section ScriptFacts.
Variable P : Pillow.
Variable H : Host.
Variable spawn : list string -> filesystem -> option (Z * filesystem).
Variable userhome_of : string -> option string.

(** The script body, step by step. *)
Lemma main_run :
  exists icon,
    create_claudius_icon P H 1024 = Ok icon /\
    im_size icon = (1024, 1024) /\
    forall (w : world) (out : console),
      let h := home_prefix userhome_of in
      let png_path := h +:+ "/xcode_projects/iClaudius/AppIcon.png" in
      let icns_path :=
        h +:+ "/xcode_projects/iClaudius/iClaudius.app/Contents/Resources/AppIcon.icns" in
      let resources :=
        h +:+ "/xcode_projects/iClaudius/iClaudius.app/Contents/Resources" in
      main P H spawn userhome_of (w, out) =
      match save icon png_path w with
      | (Raise e, w1) => (Raise e, (w1, out))
      | (Ok _, w1) =>
          let out1 := out ++ ["Saved PNG: " +:+ png_path] in
          match makedirs resources w1 with
          | (Raise e, w2) => (Raise e, (w2, out1))
          | (Ok _, w2) =>
              match create_icns P spawn icon icns_path w2 with
              | (Raise e, w3) => (Raise e, (w3, out1))
              | (Ok _, w3) =>
                  (Ok tt,
                   (w3, out1 ++ ["Saved ICNS: " +:+ icns_path;
                                 "Icon generation complete!"]))
              end
          end
      end.
Proof.
  destruct (create_claudius_icon_ok P H 1024) as (font & _ & Hicon); [lia|].
  eexists. split; [exact Hicon|]. split; [by rewrite draw_all_size|].
  intros w out h png_path icns_path resources.
  unfold main. rewrite Hicon, png_path_eq, icns_path_eq, resources_dir_eq.
  fold h. fold png_path icns_path resources.
  unfold mbind, Script_bind, lift_result, lift, print. cbn [fst snd].
  destruct (save _ png_path w) as [[[]|e] w1]; cbn [fst snd]; [|done].
  destruct (makedirs resources w1) as [[[]|e] w2]; cbn [fst snd]; [|done].
  destruct (create_icns P spawn _ icns_path w2) as [[[]|e] w3];
    cbn [fst snd]; [|done].
  by rewrite <- app_assoc.
Qed.

End ScriptFacts.

(** X17. What the console tells about a run of the script body.  The
    first effect of the script is the save of the PNG: no directory is
    created before it, and nothing is printed unless it went through.
    What is printed is nothing, or the "Saved PNG" line alone, or the
    three lines in order; the three lines appear exactly when the script
    returns, and then the recorded effects are, in order, the save of
    the 1024 x 1024 PNG, the creation of the Resources directory and a
    complete run of [create_icns] on the same image. *)
Theorem script_progress (P : Pillow) (H : Host)
    (spawn : list string -> filesystem -> option (Z * filesystem))
    (userhome_of : string -> option string) (w : world) (out : console) :
  let h := home_prefix userhome_of in
  let png_path := h +:+ "/xcode_projects/iClaudius/AppIcon.png" in
  let icns_path :=
    h +:+ "/xcode_projects/iClaudius/iClaudius.app/Contents/Resources/AppIcon.icns" in
  let resources :=
    h +:+ "/xcode_projects/iClaudius/iClaudius.app/Contents/Resources" in
  let line1 := "Saved PNG: " +:+ png_path in
  let line2 := "Saved ICNS: " +:+ icns_path in
  let line3 := "Icon generation complete!"%string in
  let r := fst (main P H spawn userhome_of (w, out)) in
  let w' := fst (snd (main P H spawn userhome_of (w, out))) in
  let out' := snd (snd (main P H spawn userhome_of (w, out))) in
  exists icon evs lines,
    create_claudius_icon P H 1024 = Ok icon /\
    im_size icon = (1024, 1024) /\
    w_trace w' = w_trace w ++ evs /\
    out' = out ++ lines /\
    (lines = [] \/ lines = [line1] \/ lines = [line1; line2; line3]) /\
    (r = Ok tt <-> lines = [line1; line2; line3]) /\
    (lines = [] <-> evs = []) /\
    (evs = [] \/ exists rest, evs = EvSave png_path icon :: rest) /\
    (r = Ok tt ->
     evs = EvSave png_path icon :: EvMakedirs resources
           :: EvMakedirs (iconset_path_of icns_path)
           :: (sizes ≫= stage_events P icon (iconset_path_of icns_path))
           ++ [EvRun (iconutil_argv (iconset_path_of icns_path) icns_path);
               EvRmtree (iconset_path_of icns_path)]).
Proof.
  intros h png_path icns_path resources line1 line2 line3 r w' out'.
  destruct (main_run P H spawn userhome_of) as (icon & Hicon & Hsize & Hrun).
  specialize (Hrun w out). cbv zeta in Hrun.
  fold h in Hrun. fold png_path icns_path resources line1 line2 in Hrun.
  subst r w' out'. rewrite Hrun. clear Hrun.
  exists icon. rewrite save_run.
  destruct (bool_decide (png_path ∈ dirs (w_fs w))).
  { exists [], []. cbn [fst snd]. rewrite !app_nil_r.
    repeat split; try done; auto. }
  set (w1 := mkWorld _ _). rewrite makedirs_run.
  destruct (String.eqb resources "").
  { exists [EvSave png_path icon], [line1]. cbn [fst snd w1 w_trace].
    repeat split; try done; auto. right. by eexists. }
  destruct (bool_decide (is_Some _)).
  { exists [EvSave png_path icon], [line1]. cbn [fst snd w1 w_trace].
    repeat split; try done; auto. right. by eexists. }
  set (w2 := mkWorld _ _).
  pose proof (create_icns_outcomes P spawn icon icns_path w2) as Hout.
  cbv zeta in Hout. destruct Hout as (evs & Ht & Hcases).
  destruct (create_icns P spawn icon icns_path w2) as [[[]|e] w3];
    cbn [fst snd] in *.
  - destruct Hcases as [[_ ->]|(e & He & _)]; [|done].
    eexists (EvSave png_path icon :: EvMakedirs resources :: _),
            [line1; line2; line3].
    split; [done|]. split; [done|]. split.
    { rewrite Ht. cbn [w2 w1 w_trace]. by rewrite <- !app_assoc. }
    split; [by rewrite <- app_assoc|].
    repeat split; try done; auto. right. by eexists.
  - eexists (EvSave png_path icon :: EvMakedirs resources :: evs), [line1].
    split; [done|]. split; [done|]. split.
    { rewrite Ht. cbn [w2 w1 w_trace]. by rewrite <- !app_assoc. }
    repeat split; try done; auto. right. by eexists.
Qed.

(** X18. When the script body returns and the packaging tool leaves the
    PNG file alone, the file system holds at
    h/xcode_projects/iClaudius/AppIcon.png the icon rendered at size
    1024, an image of 1024 x 1024 pixels: neither the staging nor the
    removal of the staging directory touches it. *)
Theorem script_keeps_png (P : Pillow) (H : Host)
    (spawn : list string -> filesystem -> option (Z * filesystem))
    (userhome_of : string -> option string)
    (w w' : world) (out out' : console) :
  let png_path := home_prefix userhome_of
                  +:+ "/xcode_projects/iClaudius/AppIcon.png" in
  (forall argv f code f',
     spawn argv f = Some (code, f') ->
     files f' !! png_path = files f !! png_path) ->
  main P H spawn userhome_of (w, out) = (Ok tt, (w', out')) ->
  exists icon,
    create_claudius_icon P H 1024 = Ok icon /\
    im_size icon = (1024, 1024) /\
    files (w_fs w') !! png_path = Some icon.
Proof.
  intros png_path Htool Hmain.
  destruct (main_run P H spawn userhome_of) as (icon & Hicon & Hsize & Hrun).
  specialize (Hrun w out). cbv zeta in Hrun. fold png_path in Hrun.
  rewrite Hrun in Hmain. clear Hrun.
  exists icon. split; [exact Hicon|]. split; [exact Hsize|].
  rewrite save_run in Hmain.
  destruct (bool_decide (png_path ∈ dirs (w_fs w))); [done|].
  set (w1 := mkWorld _ _) in Hmain. rewrite makedirs_run in Hmain.
  destruct (String.eqb _ ""); [done|].
  destruct (bool_decide (is_Some _)); [done|].
  set (w2 := mkWorld _ _) in Hmain.
  set (icns_path := home_prefix userhome_of +:+ _) in Hmain.
  destruct (create_icns P spawn icon icns_path w2) as [[[]|e] w3] eqn:Hc;
    [|done].
  injection Hmain as <- _.
  destruct (create_icns_ok_inv P spawn icon icns_path w2 w3 Hc)
    as (w1' & f2 & Hst & Hsp & _ & ->).
  destruct (script_paths_aux userhome_of) as [Hne Hunder].
  fold png_path icns_path in Hne, Hunder.
  cbn [w_fs files]. apply map_lookup_filter_Some. split; [|done].
  rewrite (Htool _ _ _ _ Hsp).
  destruct (stage_iconset_inv P icon icns_path w2 w1' Hst) as (_ & _ & _ & Hf & _).
  rewrite Hf, apply_saves_frame.
  - cbn [w2 w1 w_fs files]. apply lookup_insert_eq.
  - intros Hin. apply staged_keys_under in Hin. congruence.
Qed.

(** On an empty file system, with a tool that exits with status 0 and
    writes nothing, the script body returns. *)
Lemma main_returns_on_empty (P : Pillow) (H : Host)
    (spawn : list string -> filesystem -> option (Z * filesystem))
    (userhome_of : string -> option string) :
  (forall argv f, spawn argv f = Some (0, f)) ->
  exists w' out',
    main P H spawn userhome_of (Reference.empty_world, [])
    = (Ok tt, (w', out')).
Proof.
  intros Hspawn.
  destruct (main_run P H spawn userhome_of) as (icon & _ & _ & Hrun).
  specialize (Hrun Reference.empty_world []). cbv zeta in Hrun.
  set (h := home_prefix userhome_of) in *.
  destruct (script_paths_aux userhome_of) as [Hne _]. cbv zeta in Hne.
  fold h in Hne.
  destruct (iconset_path_facts h) as (_ & Hlen & _).
  pose proof (staging_dir_eq userhome_of) as Hp. fold h in Hp.
  set (png_path := h +:+ "/xcode_projects/iClaudius/AppIcon.png") in *.
  set (icns_path :=
         h +:+ "/xcode_projects/iClaudius/iClaudius.app/Contents/Resources/AppIcon.icns") in *.
  set (resources :=
         h +:+ "/xcode_projects/iClaudius/iClaudius.app/Contents/Resources") in *.
  rewrite save_run in Hrun.
  cbn [Reference.empty_world w_fs dirs files w_trace] in Hrun.
  rewrite bool_decide_eq_false_2 in Hrun by apply not_elem_of_empty.
  rewrite makedirs_run in Hrun. cbn [w_fs dirs files w_trace] in Hrun.
  destruct (String.eqb_spec resources "") as [E|_];
    [by apply append_nonempty_r in E|].
  assert (Hrp : png_path ≠ resources).
  { unfold png_path, resources. intros E. by apply (inj (String.app h)) in E. }
  rewrite bool_decide_eq_false_2 in Hrun.
  2:{ rewrite lookup_insert_ne by done. rewrite lookup_empty. by intros [? ?]. }
  set (w2 := mkWorld _ _) in Hrun.
  destruct (create_icns_on_fresh P spawn icon icns_path w2 0)
    as (w1 & w' & _ & Hc & _).
  - rewrite Hp. apply append_nonempty_r.
  - cbn [w2 w_fs files]. rewrite lookup_insert_ne by done. apply lookup_empty.
  - cbn [w2 w_fs dirs]. intros d Hd.
    apply elem_of_union in Hd as [Hd|Hd]; [|by apply not_elem_of_empty in Hd].
    apply elem_of_singleton in Hd as ->. apply not_under_shorter.
    rewrite Hp. unfold resources. rewrite !append_length. cbn [String.length]. lia.
  - intros f. apply Hspawn.
  - rewrite Hc in Hrun. cbn in Hrun. by eexists _, _.
Qed.

Lemma script_keeps_png_witness :
  exists w' out' icon,
    main Reference.pillow Reference.bare Reference.tool_ok Reference2.homes
      (Reference.empty_world, [])
    = (Ok tt, (w', out')) /\
    files (w_fs w') !! "/Users/claudius/xcode_projects/iClaudius/AppIcon.png"
    = Some icon.
Proof.
  destruct (main_returns_on_empty Reference.pillow Reference.bare
              Reference.tool_ok Reference2.homes) as (w' & out' & Hmain).
  { reflexivity. }
  destruct (script_keeps_png Reference.pillow Reference.bare Reference.tool_ok
              Reference2.homes Reference.empty_world w' [] out')
    as (icon & _ & _ & Hpng).
  { intros argv f code f' [= _ <-]. reflexivity. }
  { exact Hmain. }
  exists w', out', icon. split; [exact Hmain|exact Hpng].
Defined.


(** ** Round trips and redundancy of the Exporter *)



(** X20. The thirteen files hold seven different resizes: for every
    resolution N up to 512, 2N is again a resolution of the list, and
    once the staging has returned the file icon_NxN@2x.png holds the
    very image stored as icon_2Nx2N.png, the source resized to
    2N x 2N. *)
Theorem retina_files_repeat_base_files (P : Pillow) (src : Image) (out : string)
    (w w1 : world) (N : Z) :
  stage_iconset P src out w = (Ok tt, w1) ->
  N ∈ sizes -> N <= 512 ->
  let p := iconset_path_of out in
  N * 2 ∈ sizes /\
  files (w_fs w1)
    !! join p ("icon_" +:+ str N +:+ "x" +:+ str N +:+ "@2x.png")
  = Some (resize P src (N * 2, N * 2)) /\
  files (w_fs w1)
    !! join p ("icon_" +:+ str (N * 2) +:+ "x" +:+ str (N * 2) +:+ ".png")
  = Some (resize P src (N * 2, N * 2)).
Proof.
  intros Hst HN Hle p.
  destruct (stage_iconset_inv P src out w w1 Hst) as (_ & _ & _ & Hf & _).
  fold p in Hf. rewrite Hf.
  assert (H2 : N * 2 ∈ sizes).
  { unfold sizes in *.
    repeat (apply elem_of_cons in HN as [->|HN];
            [by repeat first [apply list_elem_of_here
                             |apply list_elem_of_further] || lia|]).
    by apply elem_of_nil in HN. }
  split; [exact H2|]. split.
  - apply apply_saves_lookup; [apply staged_keys_NoDup|].
    apply list_elem_of_bind. exists N. split; [|done].
    rewrite stage_events_unfold. apply list_elem_of_further.
    apply Z.leb_le in Hle. rewrite Hle. apply list_elem_of_here.
  - apply apply_saves_lookup; [apply staged_keys_NoDup|].
    apply list_elem_of_bind. exists (N * 2). split; [|done].
    rewrite stage_events_unfold. apply list_elem_of_here.
Qed.

Lemma retina_files_repeat_base_files_witness :
  exists w1,
    files (w_fs w1) !! join "AppIcon.iconset" "icon_256x256@2x.png"
    = Some (Reference.resize (Reference.test_card 64) (512, 512)) /\
    files (w_fs w1) !! join "AppIcon.iconset" "icon_512x512.png"
    = Some (Reference.resize (Reference.test_card 64) (512, 512)).
Proof.
  destruct (stage_iconset_ok Reference.pillow (Reference.test_card 64)
              "AppIcon.icns" Reference.empty_world)
    as (w1 & Hst & _ & _).
  { discriminate. }
  { apply lookup_empty. }
  { intros d Hd. by apply not_elem_of_empty in Hd. }
  exists w1.
  destruct (retina_files_repeat_base_files Reference.pillow
              (Reference.test_card 64) "AppIcon.icns" Reference.empty_world
              w1 256 Hst) as (_ & Hretina & Hbase).
  { unfold sizes.
    by repeat first [apply list_elem_of_here|apply list_elem_of_further]. }
  { lia. }
  split; [exact Hretina|exact Hbase].
Defined.

(** ** Binary64 arithmetic *)

(** X21. At the size the script renders, 1024, and at every size from 1
    to 64, the float expressions of the Renderer evaluated in IEEE
    binary64 arithmetic, as Python evaluates them, give the floor
    divisions of the integer model: int(size * 0.55) is 55 * size / 100,
    and the channels of scanline i are 88 + 40 i / size,
    28 + 20 i / size and 108 + 30 i / size. *)
Theorem binary64_matches_floor_division (size : Z) :
  size = 1024 \/ 1 <= size <= 64 ->
  Binary64.font_size size = 55 * size / 100 /\
  forall i, 0 <= i < size ->
    Binary64.gradient_color size i
    = RGBa (88 + 40 * i / size) (28 + 20 * i / size) (108 + 30 * i / size) 255.
Proof.
  intros Hsize. destruct (binary64_agrees size Hsize) as [Hfont Hgrad].
  split.
  - rewrite Hfont. apply font_size_closed. lia.
  - intros i Hi. rewrite Hgrad by done.
    rewrite gradient_color_closed by lia. done.
Qed.

Lemma binary64_matches_floor_division_witness :
  Binary64.font_size 1024 = 55 * 1024 / 100 /\
  Binary64.gradient_color 1024 512
  = RGBa (88 + 40 * 512 / 1024) (28 + 20 * 512 / 1024)
         (108 + 30 * 512 / 1024) 255.
Proof.
  destruct (binary64_matches_floor_division 1024) as [Hfont Hgrad]; [by left|].
  split; [exact Hfont|]. apply Hgrad. lia.
Defined.
